(** * three-geospatial: temporal cloud resolve and aerial perspective

    A shallow embedding of the fragment shaders
    [packages/clouds/src/shaders/cloudsResolve.frag] and
    [packages/atmosphere/src/shaders/aerialPerspectiveEffect.frag], and of
    the debug part of the storybook hook [useCloudsControls].

    GLSL [float] values are idealised as exact rationals ([Q]); numeric
    equalities are therefore stated with [==] and structural ones (a pixel
    passed through untouched) with Leibniz equality.  GLSL [int] values are
    [Z]; [/] and [%] on them are [Z.quot] and [Z.rem]. *)

From Stdlib Require Import ZArith QArith Qminmax Qabs List Lia Lqa Bool.
From stdpp Require gmap strings.
Import ListNotations.

Open Scope Q_scope.

(** ** GLSL values and built-ins *)

Module Glsl.

Record vec2 := mkVec2 { vx : Q; vy : Q }.
Record vec3 := mkVec3 { x3 : Q; y3 : Q; z3 : Q }.
Record vec4 := mkVec4 { cr : Q; cg : Q; cb : Q; ca : Q }.
Record ivec2 := mkIvec2 { ix : Z; iy : Z }.

(** A [mat4] is column major: [m[i]] is the i-th column. *)
Record mat4 := mkMat4 { col0 : vec4; col1 : vec4; col2 : vec4; col3 : vec4 }.

(** The four channels of a [vec4], to quantify over them. *)
Inductive channel := R | G | B | A.

Definition chan (c : channel) (v : vec4) : Q :=
  match c with R => cr v | G => cg v | B => cb v | A => ca v end.

Definition map4 (f : Q -> Q) (v : vec4) : vec4 :=
  mkVec4 (f (cr v)) (f (cg v)) (f (cb v)) (f (ca v)).

Definition zip4 (f : Q -> Q -> Q) (u v : vec4) : vec4 :=
  mkVec4 (f (cr u) (cr v)) (f (cg u) (cg v)) (f (cb u) (cb v)) (f (ca u) (ca v)).

Definition map3 (f : Q -> Q) (v : vec3) : vec3 :=
  mkVec3 (f (x3 v)) (f (y3 v)) (f (z3 v)).

Definition zip3 (f : Q -> Q -> Q) (u v : vec3) : vec3 :=
  mkVec3 (f (x3 u) (x3 v)) (f (y3 u) (y3 v)) (f (z3 u) (z3 v)).

Definition zip2 (f : Q -> Q -> Q) (u v : vec2) : vec2 :=
  mkVec2 (f (vx u) (vx v)) (f (vy u) (vy v)).

(** Indexing with an [int].  GLSL leaves an index outside the vector
    undefined; here it reads the last component. *)
Definition vec4_at (v : vec4) (i : Z) : Q :=
  match i with
  | 0%Z => cr v
  | 1%Z => cg v
  | 2%Z => cb v
  | _ => ca v
  end.

Definition mat4_at (m : mat4) (i : Z) : vec4 :=
  match i with
  | 0%Z => col0 m
  | 1%Z => col1 m
  | 2%Z => col2 m
  | _ => col3 m
  end.

(** [int(x)]: conversion of a float to an integer drops the fraction. *)
Definition int (x : Q) : Z := Z.quot (Qnum x) (Zpos (Qden x)).

(** Comparisons as booleans. *)
Definition Qltb (x y : Q) : bool := (Qnum x * QDen y <? Qnum y * QDen x)%Z.
Definition Qgtb (x y : Q) : bool := Qltb y x.
Definition Qgeb (x y : Q) : bool := Qle_bool y x.

(** [clamp], [mix] and [smoothstep] as the GLSL specification defines
    them. *)
Definition min (x y : Q) : Q := if Qltb y x then y else x.
Definition max (x y : Q) : Q := if Qltb x y then y else x.
Definition clamp (x lo hi : Q) : Q := min (max x lo) hi.
Definition mix (x y a : Q) : Q := x * (1 - a) + y * a.

Definition smoothstep (edge0 edge1 x : Q) : Q :=
  let t := clamp ((x - edge0) / (edge1 - edge0)) 0 1 in
  t * t * (3 - 2 * t).

Definition mix3 (u v : vec3) (a : Q) : vec3 := zip3 (fun p q => mix p q a) u v.
Definition mix4 (u v : vec4) (a : Q) : vec4 := zip4 (fun p q => mix p q a) u v.

(** Swizzles and constructors. *)
Definition xyz (v : vec4) : vec3 := mkVec3 (cr v) (cg v) (cb v).
Definition xy (v : vec4) : vec2 := mkVec2 (cr v) (cg v).
Definition vec4_of (v : vec3) (w : Q) : vec4 := mkVec4 (x3 v) (y3 v) (z3 v) w.

(** [m * v] for a [mat4], and [mat3(m) * v]. *)
Definition mulMat4 (m : mat4) (v : vec4) : vec4 :=
  zip4 Qplus
    (zip4 Qplus (map4 (Qmult (cr v)) (col0 m)) (map4 (Qmult (cg v)) (col1 m)))
    (zip4 Qplus (map4 (Qmult (cb v)) (col2 m)) (map4 (Qmult (ca v)) (col3 m))).

Definition mulMat3 (m : mat4) (v : vec3) : vec3 :=
  zip3 Qplus
    (zip3 Qplus (map3 (Qmult (x3 v)) (xyz (col0 m))) (map3 (Qmult (y3 v)) (xyz (col1 m))))
    (map3 (Qmult (z3 v)) (xyz (col2 m))).

(** A [sampler2D] is read by integer texel ([texelFetch], level 0) or by
    normalised coordinates ([texture], whatever its filtering is). *)
Record sampler2D := mkSampler {
  texelFetch : ivec2 -> vec4;
  texture : vec2 -> vec4
}.

Definition texelFetchOffset (s : sampler2D) (coord offset : ivec2) : vec4 :=
  texelFetch s (mkIvec2 (ix coord + ix offset) (iy coord + iy offset)).

End Glsl.

(** ** cloudsResolve.frag *)

Module CloudsResolve.
Import Glsl.

(** The preprocessor symbols the shader tests. *)
Record Defines := mkDefines {
  SHADOW_LENGTH : bool;
  TEMPORAL_UPSCALING : bool;
  DEBUG_SHOW_SHADOW_LENGTH : bool
}.

Record Uniforms := mkUniforms {
  colorBuffer : sampler2D;
  depthVelocityBuffer : sampler2D;
  colorHistoryBuffer : sampler2D;
  shadowLengthBuffer : sampler2D;
  shadowLengthHistoryBuffer : sampler2D;
  texelSize : vec2;
  frame : Z;
  varianceGamma : Q;
  temporalAlpha : Q
}.

Definition neighborOffsets : list ivec2 :=
  [ mkIvec2 (-1) (-1); mkIvec2 (-1) 0; mkIvec2 (-1) 1;
    mkIvec2 0 (-1); mkIvec2 0 0; mkIvec2 0 1;
    mkIvec2 1 (-1); mkIvec2 1 0; mkIvec2 1 1 ].

(** The initial [result] of [getClosestFragment]. *)
Definition sentinel : vec4 := mkVec4 1e7 0 0 0.

(** The nine texels the loop of [getClosestFragment] fetches, in order. *)
Definition neighbors (buf : sampler2D) (coord : ivec2) : list vec4 :=
  map (texelFetchOffset buf coord) neighborOffsets.

(** One iteration of the loop body. *)
Definition closer (result neighbor : vec4) : vec4 :=
  if Qltb (cr neighbor) (cr result) then neighbor else result.

Definition getClosestFragment (u : Uniforms) (coord : ivec2) : vec4 :=
  fold_left closer (neighbors (depthVelocityBuffer u) coord) sentinel.

Definition bayerIndices : mat4 :=
  mkMat4 (mkVec4 0 12 3 15)
         (mkVec4 8 4 11 7)
         (mkVec4 2 14 1 13)
         (mkVec4 10 6 9 5).

(** *** varianceClipping

    The shader takes [varianceClipping] from [#include "varianceClipping"];
    the included file is not among the sources.  The spec describes it:
    mean and variance of the local window of the current sample in the
    current buffer, a box of half-width variance * gamma around the mean,
    and the history sample clamped into the box along the line from the
    mean to the history sample. *)

(** Modelled from the spec: the component-wise sum of a window (part of the
    missing [varianceClipping]). *)
Definition sum4 (l : list vec4) : vec4 :=
  fold_right (zip4 Qplus) (mkVec4 0 0 0 0) l.

(** Modelled from the spec: the local 3x3 window of the missing
    [varianceClipping], the current sample and its eight neighbours in the
    current buffer. *)
Definition window (buf : sampler2D) (coord : ivec2) (current : vec4) : list vec4 :=
  current ::
  map (texelFetchOffset buf coord)
      (List.filter (fun o => negb ((ix o =? 0)%Z && (iy o =? 0)%Z)) neighborOffsets).

(** Modelled from the spec: the number of samples of a window (part of the
    missing [varianceClipping]). *)
Definition count (l : list vec4) : Q := inject_Z (Z.of_nat (length l)).

(** Modelled from the spec: the per-channel mean of the window (part of the
    missing [varianceClipping]). *)
Definition mean (l : list vec4) : vec4 :=
  map4 (fun s => s / count l) (sum4 l).

(** Modelled from the spec: the per-channel variance of the window, the
    mean squared distance to the mean (part of the missing
    [varianceClipping]). *)
Definition variance (l : list vec4) : vec4 :=
  let m := mean l in
  map4 (fun s => s / count l)
       (sum4 (map (fun w => zip4 (fun p q => (p - q) * (p - q)) w m) l)).

(** Modelled from the spec: how far along the line from the mean the
    history sample may go in one channel of the missing [varianceClipping]:
    all the way when it is within the half-width [e], otherwise up to the
    face of the box. *)
Definition reach (e d : Q) : Q :=
  if Qle_bool (Qabs d) e then 1 else e / Qabs d.

(** Modelled from the spec: the clamp of the missing [varianceClipping],
    of [history] into the box of half-widths [e] around [m], along the line
    from [m] to [history]: the history itself when it is inside, otherwise
    the point where the line leaves the box. *)
Definition clipToBox (m e history : vec4) : vec4 :=
  let d := zip4 Qminus history m in
  let s := zip4 reach e d in
  let t := min (min (cr s) (cg s)) (min (cb s) (ca s)) in
  if Qle_bool 1 t then history
  else zip4 Qplus m (map4 (fun q => t * q) d).

(** Modelled from the spec: [varianceClipping], missing from the sources
    (it is included from a file of its own): the history sample clamped into
    the box of half-width variance * gamma around the mean of the window. *)
Definition varianceClipping
    (buf : sampler2D) (coord : ivec2) (current history : vec4) (gamma : Q) : vec4 :=
  let w := window buf coord current in
  clipToBox (mean w) (map4 (fun v => v * gamma) (variance w)) history.

(** Modelled from the spec: the overload of [varianceClipping] without a
    gamma, which [temporalAntialias] calls; the spec gives 1 as the gamma
    of antialiasing. *)
Definition varianceClipping1
    (buf : sampler2D) (coord : ivec2) (current history : vec4) : vec4 :=
  varianceClipping buf coord current history 1.

(** *** Reprojection *)

(** [vUv - depthVelocity.gb * texelSize] *)
Definition reproject (u : Uniforms) (vUv : vec2) (depthVelocity : vec4) : vec2 :=
  let velocity := mkVec2 (cg depthVelocity * vx (texelSize u))
                         (cb depthVelocity * vy (texelSize u)) in
  zip2 Qminus vUv velocity.

(** The rejection test both resolve functions apply to [prevUv]. *)
Definition rejected (prevUv : vec2) : bool :=
  Qltb (vx prevUv) 0 || Qgtb (vx prevUv) 1 || Qltb (vy prevUv) 0 || Qgtb (vy prevUv) 1.

(** [vec4(texelFetch(s, c, 0).rgb, 1.0)] *)
Definition rgb1 (v : vec4) : vec4 := mkVec4 (cr v) (cg v) (cb v) 1.

(** The two [out] parameters.  [outputShadowLength] is written only when
    SHADOW_LENGTH is defined. *)
Record Outputs := mkOutputs {
  outputColor : vec4;
  outputShadowLength : option Q
}.

Definition whenDefined (d : bool) (x : Q) : option Q := if d then Some x else None.

Definition temporalUpscale
    (d : Defines) (u : Uniforms) (vUv : vec2)
    (coord subCoord : ivec2) (currentFrame : bool) : Outputs :=
  let currentColor := texelFetch (colorBuffer u) subCoord in
  let currentShadowLength := rgb1 (texelFetch (shadowLengthBuffer u) subCoord) in
  if currentFrame then
    mkOutputs currentColor (whenDefined (SHADOW_LENGTH d) (cr currentShadowLength))
  else
    let depthVelocity := getClosestFragment u subCoord in
    let prevUv := reproject u vUv depthVelocity in
    if rejected prevUv then
      mkOutputs currentColor (whenDefined (SHADOW_LENGTH d) (cr currentShadowLength))
    else
      let historyColor := texture (colorHistoryBuffer u) prevUv in
      let clippedColor :=
        varianceClipping (colorBuffer u) subCoord currentColor historyColor
                         (varianceGamma u) in
      let historyShadowLength := rgb1 (texture (shadowLengthHistoryBuffer u) prevUv) in
      let clippedShadowLength :=
        varianceClipping (shadowLengthBuffer u) subCoord currentShadowLength
                         historyShadowLength (varianceGamma u) in
      mkOutputs clippedColor (whenDefined (SHADOW_LENGTH d) (cr clippedShadowLength)).

Definition temporalAntialias
    (d : Defines) (u : Uniforms) (vUv : vec2) (coord : ivec2) : Outputs :=
  let currentColor := texelFetch (colorBuffer u) coord in
  let currentShadowLength := rgb1 (texelFetch (shadowLengthBuffer u) coord) in
  let depthVelocity := getClosestFragment u coord in
  let prevUv := reproject u vUv depthVelocity in
  if rejected prevUv then
    mkOutputs currentColor (whenDefined (SHADOW_LENGTH d) (cr currentShadowLength))
  else
    let historyColor := texture (colorHistoryBuffer u) prevUv in
    let clippedColor :=
      varianceClipping1 (colorBuffer u) coord currentColor historyColor in
    let historyShadowLength := rgb1 (texture (shadowLengthHistoryBuffer u) prevUv) in
    let clippedShadowLength :=
      varianceClipping1 (shadowLengthBuffer u) coord currentShadowLength
                        historyShadowLength in
    mkOutputs (mix4 clippedColor currentColor (temporalAlpha u))
              (whenDefined (SHADOW_LENGTH d)
                 (mix (cr clippedShadowLength) (cr currentShadowLength) (temporalAlpha u))).

(** [int(bayerIndices[coord.x % 4][coord.y % 4])] *)
Definition bayerValue (coord : ivec2) : Z :=
  int (vec4_at (mat4_at bayerIndices (Z.rem (ix coord) 4)) (Z.rem (iy coord) 4)).

(** The [currentFrame] argument [main] passes to [temporalUpscale]. *)
Definition isCurrent (coord : ivec2) (frame : Z) : bool :=
  (bayerValue coord =? Z.rem frame 16)%Z.

(** [main], with [coord = ivec2(gl_FragCoord.xy)] already taken. *)
Definition main (d : Defines) (u : Uniforms) (vUv : vec2) (coord : ivec2) : Outputs :=
  let out :=
    if TEMPORAL_UPSCALING d then
      let subCoord := mkIvec2 (Z.quot (ix coord) 4) (Z.quot (iy coord) 4) in
      temporalUpscale d u vUv coord subCoord (isCurrent coord (frame u))
    else
      temporalAntialias d u vUv coord in
  if SHADOW_LENGTH d && DEBUG_SHOW_SHADOW_LENGTH d then
    match outputShadowLength out with
    | Some sl => mkOutputs (mkVec4 (sl * 0.05) (sl * 0.05) (sl * 0.05) 1.0) (Some sl)
    | None => out
    end
  else out.

End CloudsResolve.

(** ** aerialPerspectiveEffect.frag *)

Module AerialPerspective.
Import Glsl.

Record Defines := mkDefines {
  OCT_ENCODED_NORMAL : bool;
  RECONSTRUCT_NORMAL : bool;
  CORRECT_GEOMETRIC_ERROR : bool;
  SUN_IRRADIANCE : bool;
  SKY_IRRADIANCE : bool;
  TRANSMITTANCE : bool;
  INSCATTER : bool
}.

(** Uniforms and varyings of the effect. *)
Record Uniforms := mkUniforms {
  normalBuffer : sampler2D;
  projectionMatrix : mat4;
  inverseProjectionMatrix : mat4;
  inverseViewMatrix : mat4;
  cameraHeight : Q;
  geometricErrorAltitudeRange : vec2;
  sunDirection : vec3;
  irradianceScale : Q;
  cameraNear : Q;
  cameraFar : Q;
  vWorldPosition : vec3;
  vEllipsoidCenter : vec3;
  vEllipsoidRadiiSquared : vec3
}.

(** What the shader takes from the chunks it is concatenated with (depth
    and packing helpers, the precomputed atmosphere model, constants) and
    the built-ins that have no rational counterpart.  [dFdx] and [dFdy]
    stand for the screen-space derivatives of the value they are given. *)
Record Includes := mkIncludes {
  readDepth : vec2 -> Q;
  reverseLogDepth : Q -> Q -> Q -> Q;
  getViewZ : Q -> Q;
  screenToView : vec2 -> Q -> Q -> mat4 -> mat4 -> vec3;
  unpackVec2ToNormal : vec2 -> vec3;
  normalize : vec3 -> vec3;
  cross : vec3 -> vec3 -> vec3;
  dFdx : vec3 -> vec3;
  dFdy : vec3 -> vec3;
  (* returns the sun irradiance and, as [out], the sky irradiance *)
  GetSunAndSkyIrradiance : vec3 -> vec3 -> vec3 -> vec3 * vec3;
  (* returns the inscatter and, as [out], the transmittance *)
  GetSkyRadianceToPoint : vec3 -> vec3 -> Q -> vec3 -> vec3 * vec3;
  u_bottom_radius : Q;
  METER_TO_UNIT_LENGTH : Q;
  RECIPROCAL_PI : Q
}.

Section Shader.

Variable inc : Includes.
Variable d : Defines.
Variable u : Uniforms.

Definition readNormal (uv : vec2) : vec3 :=
  if OCT_ENCODED_NORMAL d then
    unpackVec2ToNormal inc (xy (texture (normalBuffer u) uv))
  else
    map3 (fun c => 2.0 * c - 1.0) (xyz (texture (normalBuffer u) uv)).

(** The two [inout] parameters are returned as a pair. *)
Definition correctGeometricError
    (minHeight maxHeight : Q) (worldPosition worldNormal : vec3) : vec3 * vec3 :=
  let normal :=
    normalize inc (zip3 Qmult (map3 (fun r => 1.0 / r) (vEllipsoidRadiiSquared u))
                              worldPosition) in
  let position := map3 (Qmult (u_bottom_radius inc)) normal in
  let t := smoothstep minHeight maxHeight (cameraHeight u) in
  (mix3 worldPosition position t, mix3 worldNormal normal t).

(** Compiled only when SUN_IRRADIANCE or SKY_IRRADIANCE is defined; the
    last case stands for the absent function and is never called. *)
Definition getSunSkyIrradiance (worldPosition worldNormal inputColor : vec3) : vec3 :=
  let albedo := map3 (fun c => c * irradianceScale u * RECIPROCAL_PI inc) inputColor in
  let '(sunIrradiance, skyIrradiance) :=
    GetSunAndSkyIrradiance inc (zip3 Qminus worldPosition (vEllipsoidCenter u))
                           worldNormal (sunDirection u) in
  match SUN_IRRADIANCE d, SKY_IRRADIANCE d with
  | true, true => zip3 Qmult albedo (zip3 Qplus sunIrradiance skyIrradiance)
  | true, false => zip3 Qmult albedo sunIrradiance
  | false, true => zip3 Qmult albedo skyIrradiance
  | false, false => inputColor
  end.

(** The [inout] radiance is returned. *)
Definition getTransmittanceInscatter
    (worldPosition worldNormal radiance : vec3) : vec3 :=
  let '(inscatter, transmittance) :=
    GetSkyRadianceToPoint inc (zip3 Qminus (vWorldPosition u) (vEllipsoidCenter u))
                          (zip3 Qminus worldPosition (vEllipsoidCenter u))
                          0.0 (sunDirection u) in
  let radiance := if TRANSMITTANCE d then zip3 Qmult radiance transmittance else radiance in
  let radiance := if INSCATTER d then zip3 Qplus radiance inscatter else radiance in
  radiance.

Definition mainImage (inputColor : vec4) (uv : vec2) : vec4 :=
  let depth := readDepth inc uv in
  if Qgeb depth (1.0 - 1e-7) then inputColor
  else
    let depth := reverseLogDepth inc depth (cameraNear u) (cameraFar u) in
    let viewPosition :=
      screenToView inc uv depth (getViewZ inc depth)
                   (projectionMatrix u) (inverseProjectionMatrix u) in
    let viewNormal :=
      if RECONSTRUCT_NORMAL d then
        normalize inc (cross inc (dFdx inc viewPosition) (dFdy inc viewPosition))
      else readNormal uv in
    let worldPosition :=
      map3 (fun c => c * METER_TO_UNIT_LENGTH inc)
           (xyz (mulMat4 (inverseViewMatrix u) (vec4_of viewPosition 1.0))) in
    let worldNormal := normalize inc (mulMat3 (inverseViewMatrix u) viewNormal) in
    let '(worldPosition, worldNormal) :=
      if CORRECT_GEOMETRIC_ERROR d then
        correctGeometricError (vx (geometricErrorAltitudeRange u))
                              (vy (geometricErrorAltitudeRange u))
                              worldPosition worldNormal
      else (worldPosition, worldNormal) in
    let radiance :=
      if SUN_IRRADIANCE d || SKY_IRRADIANCE d then
        getSunSkyIrradiance worldPosition worldNormal (xyz inputColor)
      else xyz inputColor in
    let radiance :=
      if TRANSMITTANCE d || INSCATTER d then
        getTransmittanceInscatter worldPosition worldNormal radiance
      else radiance in
    vec4_of radiance (ca inputColor).

End Shader.

End AerialPerspective.

(** ** useCloudsControls (storybook hook), debug part *)

Module CloudsControls.
Import stdpp.base stdpp.gmap stdpp.strings.
Local Open Scope string_scope.

(** A material as far as the hook touches it: the [defines] object and the
    [needsUpdate] flag. *)
Record Material := mkMaterial {
  defines : gmap string string;
  needsUpdate : bool
}.

(** [pass.renderPass], with its two materials. *)
Record CloudsPass := mkCloudsPass {
  currentMaterial : Material;
  resolveMaterial : Material
}.

(** The values the control panel hands back to the hook: each is an
    independent checkbox. *)
Record Controls := mkControls {
  ctlEnabled : bool;
  ctlTemporalUpscale : bool;
  showSampleCount : bool;
  showFrontDepth : bool;
  showShadowMap : bool;
  showCascades : bool;
  showUv : bool;
  showShadowLength : bool;
  showVelocity : bool
}.

Record CloudsControlParams := mkParams {
  enabled : bool;
  toneMapping : bool
}.

(** [if (flag) defines.NAME = '1' else delete defines.NAME] *)
Definition setDefine (flag : bool) (name : string)
    (m : gmap string string) : gmap string string :=
  if flag then <[name := "1"]> m else delete name m.

(** The first debug effect, on [pass.renderPass.currentMaterial]. *)
Definition renderDebugEffect (c : Controls) (pass : option CloudsPass) : option CloudsPass :=
  match pass with
  | None => None
  | Some p =>
      let m := defines (currentMaterial p) in
      let m := setDefine (showSampleCount c) "DEBUG_SHOW_SAMPLE_COUNT" m in
      let m := setDefine (showFrontDepth c) "DEBUG_SHOW_FRONT_DEPTH" m in
      let m := setDefine (showShadowMap c) "DEBUG_SHOW_SHADOW_MAP" m in
      let m := setDefine (showCascades c) "DEBUG_SHOW_CASCADES" m in
      let m := setDefine (showUv c) "DEBUG_SHOW_UV" m in
      Some (mkCloudsPass (mkMaterial m true) (resolveMaterial p))
  end.

(** The second debug effect, on [pass.renderPass.resolveMaterial]. *)
Definition resolveDebugEffect (c : Controls) (pass : option CloudsPass) : option CloudsPass :=
  match pass with
  | None => None
  | Some p =>
      let m := defines (resolveMaterial p) in
      let m := setDefine (showShadowLength c) "DEBUG_SHOW_SHADOW_LENGTH" m in
      let m := setDefine (showVelocity c) "DEBUG_SHOW_VELOCITY" m in
      Some (mkCloudsPass (currentMaterial p) (mkMaterial m true))
  end.

(** The first component of the returned pair. *)
Definition controlParams (c : Controls) : CloudsControlParams :=
  mkParams (ctlEnabled c)
           (negb (showSampleCount c) && negb (showFrontDepth c) && negb (showUv c)
            && negb (showShadowMap c) && negb (showShadowLength c)).

(** The [temporalUpscale] entry of the returned props. *)
Definition temporalUpscaleProp (c : Controls) : bool :=
  ctlTemporalUpscale c && negb (showShadowMap c).

(** One render of the hook followed by its debug effects: the returned
    parameters, the [temporalUpscale] prop, and the pass as the effects
    leave it. *)
Definition useCloudsControls (c : Controls) (pass : option CloudsPass)
    : CloudsControlParams * bool * option CloudsPass :=
  (controlParams c, temporalUpscaleProp c,
   resolveDebugEffect c (renderDebugEffect c pass)).

(** The debug overrides a pass shows: the debug symbols its materials
    define. *)
Definition renderDebugNames : list string :=
  ["DEBUG_SHOW_SAMPLE_COUNT"; "DEBUG_SHOW_FRONT_DEPTH"; "DEBUG_SHOW_SHADOW_MAP";
   "DEBUG_SHOW_CASCADES"; "DEBUG_SHOW_UV"].

Definition resolveDebugNames : list string :=
  ["DEBUG_SHOW_SHADOW_LENGTH"; "DEBUG_SHOW_VELOCITY"].

Definition defined (m : Material) (name : string) : bool :=
  match defines m !! name with Some _ => true | None => false end.

Definition activeOverrides (p : CloudsPass) : list string :=
  List.filter (defined (currentMaterial p)) renderDebugNames ++
  List.filter (defined (resolveMaterial p)) resolveDebugNames.

End CloudsControls.

(** ** CloudsResolveMaterial.ts *)

Module ResolveMaterial.
Import Glsl.

(** A texture is known by its handle only. *)
Definition Texture := nat.

(** The fields of a three.js camera the materials read.  [worldPosition]
    is what [camera.getWorldPosition] writes to its target. *)
Record Camera := mkCamera {
  camProjectionMatrix : mat4;
  camProjectionMatrixInverse : mat4;
  camMatrixWorld : mat4;
  camMatrixWorldInverse : mat4;
  camWorldPosition : vec3
}.

(** [new Matrix4()], [new Vector2()], [new Vector3()] *)
Definition identityMatrix : mat4 :=
  mkMat4 (mkVec4 1 0 0 0) (mkVec4 0 1 0 0) (mkVec4 0 0 1 0) (mkVec4 0 0 0 1).
Definition zero2 : vec2 := mkVec2 0 0.
Definition zero3 : vec3 := mkVec3 0 0 0.

(** [a.multiply(b)]: the matrix product a * b, column by column. *)
Definition multiply (a b : mat4) : mat4 :=
  mkMat4 (mulMat4 a (col0 b)) (mulMat4 a (col1 b))
         (mulMat4 a (col2 b)) (mulMat4 a (col3 b)).

Record CloudsResolveMaterialParameters := mkParameters {
  paramInputBuffer : option Texture;
  paramDepthVelocityBuffer : option Texture;
  paramHistoryBuffer : option Texture
}.

Record CloudsResolveMaterialUniforms := mkResolveUniforms {
  inputBuffer : option Texture;
  depthVelocityBuffer : option Texture;
  historyBuffer : option Texture;
  inverseProjectionMatrix : mat4;
  inverseViewMatrix : mat4;
  reprojectionMatrix : mat4;
  texelSize : vec2;
  cameraPosition : vec3
}.

(** The constructor; the three buffers default to [null]. *)
Definition construct (p : CloudsResolveMaterialParameters) : CloudsResolveMaterialUniforms :=
  mkResolveUniforms (paramInputBuffer p) (paramDepthVelocityBuffer p) (paramHistoryBuffer p)
                    identityMatrix identityMatrix identityMatrix zero2 zero3.

Definition copyCameraSettings (camera : Camera) (u : CloudsResolveMaterialUniforms)
    : CloudsResolveMaterialUniforms :=
  mkResolveUniforms (inputBuffer u) (depthVelocityBuffer u) (historyBuffer u)
                    (camProjectionMatrixInverse camera) (camMatrixWorld camera)
                    (reprojectionMatrix u) (texelSize u) (camWorldPosition camera).

Definition setReprojectionMatrix (camera : Camera) (u : CloudsResolveMaterialUniforms)
    : CloudsResolveMaterialUniforms :=
  mkResolveUniforms (inputBuffer u) (depthVelocityBuffer u) (historyBuffer u)
                    (inverseProjectionMatrix u) (inverseViewMatrix u)
                    (multiply (camProjectionMatrix camera) (camMatrixWorldInverse camera))
                    (texelSize u) (cameraPosition u).

(** [texelSize.set(1 / width, 1 / height)].  A zero width or height gives
    Infinity in JavaScript and is left out of the properties. *)
Definition setSize (width height : Q) (u : CloudsResolveMaterialUniforms)
    : CloudsResolveMaterialUniforms :=
  mkResolveUniforms (inputBuffer u) (depthVelocityBuffer u) (historyBuffer u)
                    (inverseProjectionMatrix u) (inverseViewMatrix u)
                    (reprojectionMatrix u) (mkVec2 (1 / width) (1 / height))
                    (cameraPosition u).

End ResolveMaterial.

(** ** AtmosphereMaterial.ts *)

Module AtmosphereMaterial.
Import stdpp.base stdpp.gmap stdpp.strings.
Import Glsl ResolveMaterial.
Local Open Scope string_scope.

Record AtmosphereMaterialParameters := mkAtmosphereParameters {
  paramIrradianceTexture : option Texture;
  paramScatteringTexture : option Texture;
  paramTransmittanceTexture : option Texture;
  paramSun : option bool;
  paramSunDirection : option vec3;
  paramSunRadius : option Q;
  paramSunIntensity : option Q
}.

(** The uniforms, the defines and the flags of the material. *)
Record Material := mkMaterial {
  irradiance_texture : option Texture;
  scattering_texture : option Texture;
  single_mie_scattering_texture : option Texture;
  transmittance_texture : option Texture;
  projectionMatrix : mat4;
  modelViewMatrix : mat4;
  modelMatrix : mat4;
  inverseProjectionMatrix : mat4;
  inverseViewMatrix : mat4;
  cameraPosition : vec3;
  sunDirectionUniform : vec3;
  sunParams : vec3;
  defines : gmap string string;
  needsUpdate : bool
}.

Section Methods.

(** [Math.cos], and the text the define METER_TO_UNIT_LENGTH carries (a
    constant of another file). *)
Variable cos : Q -> Q.
Variable METER_TO_UNIT_LENGTH : string.

Definition set_sunParams (v : vec3) (m : Material) : Material :=
  mkMaterial (irradiance_texture m) (scattering_texture m)
             (single_mie_scattering_texture m) (transmittance_texture m)
             (projectionMatrix m) (modelViewMatrix m) (modelMatrix m)
             (inverseProjectionMatrix m) (inverseViewMatrix m) (cameraPosition m)
             (sunDirectionUniform m) v (defines m) (needsUpdate m).

(** [set sunRadius]: x takes the value, y its cosine. *)
Definition set_sunRadius (value : Q) (m : Material) : Material :=
  set_sunParams (mkVec3 value (cos value) (z3 (sunParams m))) m.

Definition set_sunIntensity (value : Q) (m : Material) : Material :=
  set_sunParams (mkVec3 (x3 (sunParams m)) (y3 (sunParams m)) value) m.

Definition sunRadius (m : Material) : Q := x3 (sunParams m).
Definition sunIntensity (m : Material) : Q := z3 (sunParams m).

(** The constructor.  The [sun] parameter is taken out of the parameters
    and not used: the defines always start with SUN.  A missing radius is
    0.00465, a missing intensity 1, a missing direction the zero vector. *)
Definition construct (p : AtmosphereMaterialParameters) : Material :=
  let m :=
    mkMaterial (paramIrradianceTexture p) (paramScatteringTexture p)
               (paramScatteringTexture p) (paramTransmittanceTexture p)
               identityMatrix identityMatrix identityMatrix identityMatrix identityMatrix
               zero3
               (match paramSunDirection p with Some v => v | None => zero3 end)
               zero3
               (<["METER_TO_UNIT_LENGTH" := METER_TO_UNIT_LENGTH]> (<["SUN" := "1"]> ∅))
               false in
  let m := set_sunRadius (match paramSunRadius p with Some r => r | None => 0.00465 end) m in
  set_sunIntensity (match paramSunIntensity p with Some i => i | None => 1 end) m.

(** [onBeforeRender]: the matrices of the camera, the scene and the object
    are copied into the uniforms. *)
Definition onBeforeRender
    (camera : Camera) (sceneModelViewMatrix objectMatrixWorld : mat4) (m : Material)
    : Material :=
  mkMaterial (irradiance_texture m) (scattering_texture m)
             (single_mie_scattering_texture m) (transmittance_texture m)
             (camProjectionMatrix camera) sceneModelViewMatrix objectMatrixWorld
             (camProjectionMatrixInverse camera) (camMatrixWorld camera)
             (camWorldPosition camera)
             (sunDirectionUniform m) (sunParams m) (defines m) (needsUpdate m).

Definition irradianceTexture (m : Material) : option Texture := irradiance_texture m.

Definition set_irradianceTexture (value : option Texture) (m : Material) : Material :=
  mkMaterial value (scattering_texture m)
             (single_mie_scattering_texture m) (transmittance_texture m)
             (projectionMatrix m) (modelViewMatrix m) (modelMatrix m)
             (inverseProjectionMatrix m) (inverseViewMatrix m) (cameraPosition m)
             (sunDirectionUniform m) (sunParams m) (defines m) (needsUpdate m).

Definition scatteringTexture (m : Material) : option Texture := scattering_texture m.

(** [set scatteringTexture] writes both scattering uniforms. *)
Definition set_scatteringTexture (value : option Texture) (m : Material) : Material :=
  mkMaterial (irradiance_texture m) value value (transmittance_texture m)
             (projectionMatrix m) (modelViewMatrix m) (modelMatrix m)
             (inverseProjectionMatrix m) (inverseViewMatrix m) (cameraPosition m)
             (sunDirectionUniform m) (sunParams m) (defines m) (needsUpdate m).

Definition transmittanceTexture (m : Material) : option Texture := transmittance_texture m.

Definition set_transmittanceTexture (value : option Texture) (m : Material) : Material :=
  mkMaterial (irradiance_texture m) (scattering_texture m)
             (single_mie_scattering_texture m) value
             (projectionMatrix m) (modelViewMatrix m) (modelMatrix m)
             (inverseProjectionMatrix m) (inverseViewMatrix m) (cameraPosition m)
             (sunDirectionUniform m) (sunParams m) (defines m) (needsUpdate m).

(** [get sun]: [this.defines.SUN != null] *)
Definition sun (m : Material) : bool :=
  match defines m !! "SUN" with Some _ => true | None => false end.

Definition set_defines (ds : gmap string string) (nu : bool) (m : Material) : Material :=
  mkMaterial (irradiance_texture m) (scattering_texture m)
             (single_mie_scattering_texture m) (transmittance_texture m)
             (projectionMatrix m) (modelViewMatrix m) (modelMatrix m)
             (inverseProjectionMatrix m) (inverseViewMatrix m) (cameraPosition m)
             (sunDirectionUniform m) (sunParams m) ds nu.

(** [set sun]: nothing happens unless the value differs from the getter's. *)
Definition set_sun (value : bool) (m : Material) : Material :=
  if Bool.eqb value (sun m) then m
  else if value then set_defines (<["SUN" := "1"]> (defines m)) true m
  else set_defines (delete "SUN" (defines m)) true m.

Definition sunDirection (m : Material) : vec3 := sunDirectionUniform m.

(** [set sunDirection] copies the components of its argument. *)
Definition set_sunDirection (value : vec3) (m : Material) : Material :=
  mkMaterial (irradiance_texture m) (scattering_texture m)
             (single_mie_scattering_texture m) (transmittance_texture m)
             (projectionMatrix m) (modelViewMatrix m) (modelMatrix m)
             (inverseProjectionMatrix m) (inverseViewMatrix m) (cameraPosition m)
             value (sunParams m) (defines m) (needsUpdate m).

(** A call on the material after construction. *)
Inductive Call :=
| SetIrradianceTexture (value : option Texture)
| SetScatteringTexture (value : option Texture)
| SetTransmittanceTexture (value : option Texture)
| SetSun (value : bool)
| SetSunDirection (value : vec3)
| SetSunRadius (value : Q)
| SetSunIntensity (value : Q)
| OnBeforeRender (camera : Camera) (sceneModelViewMatrix objectMatrixWorld : mat4).

Definition call (m : Material) (c : Call) : Material :=
  match c with
  | SetIrradianceTexture v => set_irradianceTexture v m
  | SetScatteringTexture v => set_scatteringTexture v m
  | SetTransmittanceTexture v => set_transmittanceTexture v m
  | SetSun v => set_sun v m
  | SetSunDirection v => set_sunDirection v m
  | SetSunRadius v => set_sunRadius v m
  | SetSunIntensity v => set_sunIntensity v m
  | OnBeforeRender cam mv mw => onBeforeRender cam mv mw m
  end.

(** A material after construction and a series of calls. *)
Definition run (p : AtmosphereMaterialParameters) (calls : list Call) : Material :=
  fold_left call calls (construct p).

End Methods.

End AtmosphereMaterial.

(** ** useCloudsControls, the rest of the hook *)

Module CloudsControlsFrame.
Import stdpp.base stdpp.gmap stdpp.strings.
Import CloudsControls.
Local Open Scope string_scope.
Local Open Scope Q_scope.

(** The values of the folders 'scattering', 'clouds raymarch' and
    'shadow raymarch'. *)
Record ScatteringParams := mkScatteringParams {
  scatteringCoefficient : Q;
  absorptionCoefficient : Q;
  scatterAnisotropy1 : Q;
  scatterAnisotropy2 : Q;
  scatterAnisotropyMix : Q;
  skyIrradianceScale : Q;
  groundIrradianceScale : Q;
  powderScale : Q;
  powderExponent : Q
}.

Record CloudsRaymarchParams := mkCloudsRaymarchParams {
  maxIterations : Q;
  minStepSize : Q;
  maxStepSize : Q;
  maxRayDistance : Q;
  maxSunIterations : Q;
  maxGroundIterations : Q
}.

Record ShadowRaymarchParams := mkShadowRaymarchParams {
  shadowMaxIterations : Q;
  shadowMinStepSize : Q;
  shadowMaxStepSize : Q;
  maxOpticalDepthTailScale : Q
}.

(** The keys of each object with their values, in the order [for ... in]
    visits them. *)
Definition scatteringEntries (p : ScatteringParams) : list (string * Q) :=
  [("scatteringCoefficient", scatteringCoefficient p);
   ("absorptionCoefficient", absorptionCoefficient p);
   ("scatterAnisotropy1", scatterAnisotropy1 p);
   ("scatterAnisotropy2", scatterAnisotropy2 p);
   ("scatterAnisotropyMix", scatterAnisotropyMix p);
   ("skyIrradianceScale", skyIrradianceScale p);
   ("groundIrradianceScale", groundIrradianceScale p);
   ("powderScale", powderScale p);
   ("powderExponent", powderExponent p)].

Definition cloudsRaymarchEntries (p : CloudsRaymarchParams) : list (string * Q) :=
  [("maxIterations", maxIterations p);
   ("minStepSize", minStepSize p);
   ("maxStepSize", maxStepSize p);
   ("maxRayDistance", maxRayDistance p);
   ("maxSunIterations", maxSunIterations p);
   ("maxGroundIterations", maxGroundIterations p)].

Definition shadowRaymarchEntries (p : ShadowRaymarchParams) : list (string * Q) :=
  [("maxIterations", shadowMaxIterations p);
   ("minStepSize", shadowMinStepSize p);
   ("maxStepSize", shadowMaxStepSize p);
   ("maxOpticalDepthTailScale", maxOpticalDepthTailScale p)].

(** The pass as far as the hook reaches into it: the render pass with its
    two materials, the [uniforms] of the render material (name to value) and
    its [shapeDetail], the shadow settings and the [uniforms] of the shadow
    material.  Each material owns its uniforms. *)
Record Pass := mkPass {
  renderPass : CloudsPass;
  renderShapeDetail : bool;
  renderUniforms : gmap string Q;
  shadowCascadeCount : Z;
  shadowTemporalPass : bool;
  shadowTemporalJitter : bool;
  shadowUniforms : gmap string Q
}.

(** How a callback ends: it returns, or a TypeError leaves it with the
    state reached so far. *)
Inductive Outcome (S : Type) :=
| Returned (s : S)
| Threw (s : S).
Arguments Returned {S} s.
Arguments Threw {S} s.

(** [for (const key in params) uniforms[key].value = params[key]]: writing
    [.value] of a uniform the material does not have throws. *)
Fixpoint assignUniforms (entries : list (string * Q)) (uniforms : gmap string Q)
    : Outcome (gmap string Q) :=
  match entries with
  | [] => Returned uniforms
  | (key, value) :: rest =>
      match uniforms !! key with
      | Some _ => assignUniforms rest (<[key := value]> uniforms)
      | None => Threw uniforms
      end
  end.

Definition withRenderUniforms (p : Pass) (m : gmap string Q) : Pass :=
  mkPass (renderPass p) (renderShapeDetail p) m (shadowCascadeCount p)
         (shadowTemporalPass p) (shadowTemporalJitter p) (shadowUniforms p).

Definition withShadowUniforms (p : Pass) (m : gmap string Q) : Pass :=
  mkPass (renderPass p) (renderShapeDetail p) (renderUniforms p) (shadowCascadeCount p)
         (shadowTemporalPass p) (shadowTemporalJitter p) m.

(** The [useFrame] callback. *)
Definition frameCallback
    (sp : ScatteringParams) (cp : CloudsRaymarchParams) (hp : ShadowRaymarchParams)
    (pass : option Pass) : Outcome (option Pass) :=
  match pass with
  | None => Returned None
  | Some p =>
      match assignUniforms (scatteringEntries sp) (renderUniforms p) with
      | Threw m => Threw (Some (withRenderUniforms p m))
      | Returned m =>
          match assignUniforms (cloudsRaymarchEntries cp) m with
          | Threw m => Threw (Some (withRenderUniforms p m))
          | Returned m =>
              let p := withRenderUniforms p m in
              match assignUniforms (shadowRaymarchEntries hp) (shadowUniforms p) with
              | Threw m => Threw (Some (withShadowUniforms p m))
              | Returned m => Returned (Some (withShadowUniforms p m))
              end
          end
      end
  end.

(** The effect on [shapeDetail]. *)
Definition shapeDetailEffect (shapeDetail : bool) (pass : option Pass) : option Pass :=
  match pass with
  | None => None
  | Some p =>
      Some (mkPass (renderPass p) shapeDetail (renderUniforms p) (shadowCascadeCount p)
                   (shadowTemporalPass p) (shadowTemporalJitter p) (shadowUniforms p))
  end.

(** The effect on the shadow settings. *)
Definition shadowEffect (cascadeCount : Z) (temporalPass temporalJitter : bool)
    (pass : option Pass) : option Pass :=
  match pass with
  | None => None
  | Some p =>
      Some (mkPass (renderPass p) (renderShapeDetail p) (renderUniforms p) cascadeCount
                   temporalPass temporalJitter (shadowUniforms p))
  end.

(** The second component of the returned pair, the props for the clouds
    element. *)
Record CloudsProps := mkCloudsProps {
  coverage : Q;
  temporalUpscale : bool;
  resolutionScale : Q;
  localWeatherVelocity : Q * Q;
  shadowMapSize : Q * Q;
  lightShafts : bool
}.

Definition cloudsProps
    (c : Controls) (coverageValue resolutionScaleValue mapSize : Q)
    (animate lightShaftsValue : bool) (defaultLocalWeatherVelocity : option Q)
    : CloudsProps :=
  mkCloudsProps coverageValue
                (ctlTemporalUpscale c && negb (showShadowMap c))
                resolutionScaleValue
                (if animate
                 then (match defaultLocalWeatherVelocity with
                       | Some v => v
                       | None => 0.001
                       end, 0)
                 else (0, 0))
                (mapSize, mapSize)
                lightShaftsValue.

End CloudsControlsFrame.

(** ** The effect chains of the two stories *)

Module Stories.

(** The props an [AerialPerspective] element is given; [None] is a prop
    left out. *)
Record AerialPerspectiveProps := mkAerialProps {
  sunIrradiance : option bool;
  skyIrradiance : option bool;
  transmittance : option bool;
  inscatter : option bool;
  correctGeometricError : option bool;
  inputIntensity : option Q
}.

Inductive Effect :=
| AerialPerspective (props : AerialPerspectiveProps)
| LensFlare
| Depth (useTurbo : bool)
| Normal (reconstructFromDepth : option bool)
| ToneMapping
| HaldLUT (path : nat)
| SMAA
| Dithering.

(** [cond && element]: the element, or [false]. *)
Definition when (cond : bool) (e : Effect) : option Effect :=
  if cond then Some e else None.

(** [.filter(isNotFalse)], and what React does with a [false] child. *)
Fixpoint notFalse (l : list (option Effect)) : list Effect :=
  match l with
  | [] => []
  | Some e :: rest => e :: notFalse rest
  | None :: rest => notFalse rest
  end.

(** The children of the effect composer in the photorealistic-tiles story
    with [normal], [depth] and [depthNormal] checkboxes. *)
Definition tilesEffects (normal depth depthNormal : bool) : list Effect :=
  notFalse
    [ when (negb normal && negb depth && negb depthNormal)
           (AerialPerspective (mkAerialProps None (Some false) None None None (Some 0.08)));
      Some LensFlare;
      when depth (Depth true);
      when (normal || depthNormal) (Normal (Some depthNormal));
      when (negb normal && negb depth && negb depthNormal) ToneMapping;
      Some SMAA ].

(** The checkboxes of the other story. *)
Record SceneControls := mkSceneControls {
  lensFlare : bool;
  depth : bool;
  normal : bool;
  correctGeometricErrorBox : bool;
  enabled : bool;
  sun : bool;
  sky : bool;
  transmittanceBox : bool;
  inscatterBox : bool
}.

(** The children of its effect composer; [lut] is the colour-grading
    table, if one is chosen. *)
Definition sceneEffects (c : SceneControls) (forward : bool) (lut : option nat)
    : list Effect :=
  notFalse
    ([ when (enabled c && negb (normal c) && negb (depth c))
            (AerialPerspective
               (mkAerialProps (Some (negb forward && sun c)) (Some (negb forward && sky c))
                              (Some (transmittanceBox c)) (Some (inscatterBox c))
                              (Some (correctGeometricErrorBox c)) None));
       when (lensFlare c) LensFlare;
       when (depth c) (Depth true);
       when (normal c) (Normal None) ]
     ++ (if negb (normal c) && negb (depth c)
         then [ Some ToneMapping;
                match lut with Some path => Some (HaldLUT path) | None => None end;
                Some SMAA;
                Some Dithering ]
         else [])).

(** The lights of that story: [sun && forward && <SunLight>] and
    [sky && forward && <SkyLight>]. *)
Definition hasSunLight (c : SceneControls) (forward : bool) : bool := sun c && forward.
Definition hasSkyLight (c : SceneControls) (forward : bool) : bool := sky c && forward.

End Stories.

(** * Statement vocabulary and sample inputs *)

(** ** For the temporal resolve *)

Module ResolveCases.
Import Glsl CloudsResolve.

(** Sixteen consecutive frame indices from [f0] on. *)
Definition frames16 (f0 : Z) : list Z :=
  map (fun k => (f0 + Z.of_nat k)%Z) (seq 0 16).

(** The sixteen sub-pixel positions of a 4x4 block. *)
Definition block4x4 : list ivec2 :=
  flat_map (fun x => map (fun y => mkIvec2 (Z.of_nat x) (Z.of_nat y)) (seq 0 4)) (seq 0 4).

(** How many elements of a list pass a test. *)
Definition countIf {T : Type} (p : T -> bool) (l : list T) : nat :=
  length (List.filter p l).

(** A constant depth+velocity buffer, beyond the sentinel depth. *)
Definition farBuffer : sampler2D :=
  mkSampler (fun _ => mkVec4 2e7 3 4 0) (fun _ => mkVec4 2e7 3 4 0).

(** A buffer of zeros. *)
Definition blackBuffer : sampler2D :=
  mkSampler (fun _ => mkVec4 0 0 0 0) (fun _ => mkVec4 0 0 0 0).

Definition farUniforms : Uniforms :=
  mkUniforms blackBuffer farBuffer blackBuffer blackBuffer blackBuffer
             (mkVec2 (1 # 8) (1 # 8)) 0 1 (1 # 10).

(** A depth+velocity buffer whose depth grows with the texel position. *)
Definition rampBuffer : sampler2D :=
  mkSampler (fun c => mkVec4 (inject_Z (ix c + iy c)) 1 2 0)
            (fun _ => mkVec4 0 0 0 0).

Definition rampUniforms : Uniforms :=
  mkUniforms blackBuffer rampBuffer blackBuffer blackBuffer blackBuffer
             (mkVec2 (1 # 8) (1 # 8)) 0 1 (1 # 10).

Definition noDefines : Defines := mkDefines false false false.

(** The uniforms with other history buffers. *)
Definition withHistory (u : Uniforms) (h hs : sampler2D) : Uniforms :=
  mkUniforms (colorBuffer u) (depthVelocityBuffer u) h (shadowLengthBuffer u) hs
             (texelSize u) (frame u) (varianceGamma u) (temporalAlpha u).

(** The uniforms with another blend weight. *)
Definition withAlpha (u : Uniforms) (alpha : Q) : Uniforms :=
  mkUniforms (colorBuffer u) (depthVelocityBuffer u) (colorHistoryBuffer u)
             (shadowLengthBuffer u) (shadowLengthHistoryBuffer u)
             (texelSize u) (frame u) (varianceGamma u) alpha.

(** A colour buffer with one bright texel. *)
Definition dotBuffer : sampler2D :=
  mkSampler (fun c => if ((ix c =? 1) && (iy c =? 1))%Z
                      then mkVec4 9 9 9 1 else mkVec4 0 0 0 1)
            (fun _ => mkVec4 0 0 0 1).

(** A uniformly grey history. *)
Definition greyBuffer : sampler2D :=
  mkSampler (fun _ => mkVec4 (1 # 2) (1 # 2) (1 # 2) 1)
            (fun _ => mkVec4 (1 # 2) (1 # 2) (1 # 2) 1).

(** The closest fragment of [rampBuffer] moves one texel in x and two in
    y: with texel size 1/8 the destination UV (1/8, 3/4) reprojects to
    (0, 1/2). *)
Definition edgeUniforms : Uniforms :=
  mkUniforms dotBuffer rampBuffer greyBuffer blackBuffer blackBuffer
             (mkVec2 (1 # 8) (1 # 8)) 0 1 (1 # 10).

(** The sum of a list of numbers. *)
Definition total (l : list Q) : Q := fold_right Qplus 0 l.

End ResolveCases.

(** ** For the aerial perspective effect *)

Module AerialCases.
Import Glsl AerialPerspective.

(** Component-wise equality of the rational model of a [vec3]. *)
Definition eq3 (a b : vec3) : Prop :=
  x3 a == x3 b /\ y3 a == y3 b /\ z3 a == z3 b.

(** [a + t * (b - a)] *)
Definition lerp3 (a b : vec3) (t : Q) : vec3 :=
  zip3 Qplus a (map3 (Qmult t) (zip3 Qminus b a)).

(** Concrete collaborators to run the shader on: the depth buffer holds
    [depth] everywhere, the atmosphere model returns constants. *)
Definition flatIncludes (depth : Q) : Includes :=
  mkIncludes
    (fun _ => depth)
    (fun z _ _ => z)
    (fun z => - z)
    (fun uv _ z _ _ => mkVec3 (vx uv) (vy uv) z)
    (fun v => mkVec3 (vx v) (vy v) 1)
    (fun v => v)
    (fun a _ => a)
    (fun v => v)
    (fun v => v)
    (fun _ _ _ => (mkVec3 3 3 3, mkVec3 1 1 1))
    (fun _ _ _ _ => (mkVec3 (1 # 10) (1 # 10) (1 # 10), mkVec3 (1 # 2) (1 # 2) (1 # 2)))
    6360 (1 # 1000) (1 # 3).

Definition identity4 : mat4 :=
  mkMat4 (mkVec4 1 0 0 0) (mkVec4 0 1 0 0) (mkVec4 0 0 1 0) (mkVec4 0 0 0 1).

Definition upBuffer : sampler2D :=
  mkSampler (fun _ => mkVec4 (1 # 2) (1 # 2) 1 1) (fun _ => mkVec4 (1 # 2) (1 # 2) 1 1).

Definition flatUniforms (height : Q) : Uniforms :=
  mkUniforms upBuffer identity4 identity4 identity4 height (mkVec2 2000 100000)
             (mkVec3 0 0 1) 1 1 1000
             (mkVec3 0 0 0) (mkVec3 0 0 0) (mkVec3 4 4 4).

Definition allDefines : Defines := mkDefines false false true true true true true.

End AerialCases.

(** ** For the debug controls *)

Module ControlsCases.
Import stdpp.base stdpp.gmap stdpp.strings.
Import CloudsControls.
Local Open Scope string_scope.

(** A pass whose materials define nothing yet. *)
Definition freshPass : CloudsPass :=
  mkCloudsPass (mkMaterial ∅ false) (mkMaterial ∅ false).

(** Sample count and front depth switched on together. *)
Definition twoDebugViews : Controls :=
  mkControls true true true true false false false false false.

(** Only the cascade view switched on. *)
Definition cascadesView : Controls :=
  mkControls true true false false false true false false false.

(** Only the velocity view switched on. *)
Definition velocityView : Controls :=
  mkControls true true false false false false false false true.

(** The parameters and the pass one render leaves behind. *)
Definition paramsOf (c : Controls) (pass : option CloudsPass) : CloudsControlParams :=
  fst (fst (useCloudsControls c pass)).

Definition passOf (c : Controls) (pass : option CloudsPass) : option CloudsPass :=
  snd (useCloudsControls c pass).

End ControlsCases.

(** ** For the further properties *)

Module MoreCases.
Import Glsl CloudsResolve.

(** The sixteen pixels of the 4x4 block number ([bx], [bz]). *)
Definition blockAt (bx bz : Z) : list ivec2 :=
  map (fun p => mkIvec2 (4 * bx + ix p) (4 * bz + iy p)) ResolveCases.block4x4.

(** The uniforms at another frame index. *)
Definition withFrame (u : Uniforms) (f : Z) : Uniforms :=
  mkUniforms (colorBuffer u) (depthVelocityBuffer u) (colorHistoryBuffer u)
             (shadowLengthBuffer u) (shadowLengthHistoryBuffer u)
             (texelSize u) f (varianceGamma u) (temporalAlpha u).

(** The uniforms with another texel size. *)
Definition withTexelSize (u : Uniforms) (t : vec2) : Uniforms :=
  mkUniforms (colorBuffer u) (depthVelocityBuffer u) (colorHistoryBuffer u)
             (shadowLengthBuffer u) (shadowLengthHistoryBuffer u)
             t (frame u) (varianceGamma u) (temporalAlpha u).

(** The defines with DEBUG_SHOW_SHADOW_LENGTH set as given. *)
Definition withDebug (d : Defines) (b : bool) : Defines :=
  mkDefines (SHADOW_LENGTH d) (TEMPORAL_UPSCALING d) b.

(** [main] before the debug view. *)
Definition resolved (d : Defines) (u : Uniforms) (vUv : vec2) (coord : ivec2) : Outputs :=
  if TEMPORAL_UPSCALING d then
    temporalUpscale d u vUv coord
                    (mkIvec2 (Z.quot (ix coord) 4) (Z.quot (iy coord) 4))
                    (isCurrent coord (frame u))
  else temporalAntialias d u vUv coord.

(** Component-wise equality of the rational model of a [vec4]. *)
Definition eq4 (a b : vec4) : Prop :=
  cr a == cr b /\ cg a == cg b /\ cb a == cb b /\ ca a == ca b.

(** A shadow-length buffer and history to run the shader on. *)
Definition lengthBuffer : sampler2D :=
  mkSampler (fun c => mkVec4 (inject_Z (ix c)) 0 0 0) (fun _ => mkVec4 40 0 0 0).

Definition shadowUniforms : Uniforms :=
  mkUniforms ResolveCases.dotBuffer ResolveCases.rampBuffer ResolveCases.greyBuffer
             lengthBuffer lengthBuffer (mkVec2 (1 # 8) (1 # 8)) 5 1 (1 # 4).

End MoreCases.

(** ** For the further properties of the aerial perspective effect *)

Module AerialMoreCases.
Import Glsl AerialPerspective.

(** The defines with the two normal-related symbols set as given. *)
Definition withNormalDefines (d : Defines) (oct reconstruct : bool) : Defines :=
  mkDefines oct reconstruct (CORRECT_GEOMETRIC_ERROR d)
            (SUN_IRRADIANCE d) (SKY_IRRADIANCE d) (TRANSMITTANCE d) (INSCATTER d).

(** The defines with the two irradiance symbols set as given. *)
Definition withIrradiance (d : Defines) (sun sky : bool) : Defines :=
  mkDefines (OCT_ENCODED_NORMAL d) (RECONSTRUCT_NORMAL d) (CORRECT_GEOMETRIC_ERROR d)
            sun sky (TRANSMITTANCE d) (INSCATTER d).

(** The uniforms with another normal buffer. *)
Definition withNormalBuffer (u : Uniforms) (nb : sampler2D) : Uniforms :=
  mkUniforms nb (projectionMatrix u) (inverseProjectionMatrix u) (inverseViewMatrix u)
             (cameraHeight u) (geometricErrorAltitudeRange u) (sunDirection u)
             (irradianceScale u) (cameraNear u) (cameraFar u)
             (vWorldPosition u) (vEllipsoidCenter u) (vEllipsoidRadiiSquared u).

(** An atmosphere model that neither attenuates nor scatters. *)
Definition clearIncludes (depth : Q) : Includes :=
  mkIncludes
    (fun _ => depth)
    (fun z _ _ => z)
    (fun z => - z)
    (fun uv _ z _ _ => mkVec3 (vx uv) (vy uv) z)
    (fun v => mkVec3 (vx v) (vy v) 1)
    (fun v => v)
    (fun a _ => a)
    (fun v => v)
    (fun v => v)
    (fun _ _ _ => (mkVec3 3 3 3, mkVec3 1 1 1))
    (fun _ _ _ _ => (mkVec3 0 0 0, mkVec3 1 1 1))
    6360 (1 # 1000) (1 # 3).

End AerialMoreCases.

(** ** For the properties of the two materials *)

Module MaterialCases.
Import stdpp.base stdpp.gmap stdpp.strings.
Import Glsl ResolveMaterial AtmosphereMaterial.
Local Open Scope string_scope.
Local Open Scope Q_scope.

(** The value of the last [SetSun] of a series of calls, [current] if
    there is none; likewise for the radius and the intensity of the sun and
    for the scattering texture. *)
Fixpoint lastSun (calls : list Call) (current : bool) : bool :=
  match calls with
  | [] => current
  | SetSun v :: rest => lastSun rest v
  | _ :: rest => lastSun rest current
  end.

Fixpoint lastSunRadius (calls : list Call) (current : Q) : Q :=
  match calls with
  | [] => current
  | SetSunRadius v :: rest => lastSunRadius rest v
  | _ :: rest => lastSunRadius rest current
  end.

Fixpoint lastSunIntensity (calls : list Call) (current : Q) : Q :=
  match calls with
  | [] => current
  | SetSunIntensity v :: rest => lastSunIntensity rest v
  | _ :: rest => lastSunIntensity rest current
  end.

Fixpoint lastScatteringTexture (calls : list Call) (current : option Texture)
    : option Texture :=
  match calls with
  | [] => current
  | SetScatteringTexture v :: rest => lastScatteringTexture rest v
  | _ :: rest => lastScatteringTexture rest current
  end.

(** Whether a series of calls sets [sun] at all. *)
Definition setsSun (calls : list Call) : bool :=
  existsb (fun c => match c with SetSun _ => true | _ => false end) calls.

(** A stand-in for the cosine, to run the setters on. *)
Definition halfSquare (x : Q) : Q := 1 - x * x / 2.

Definition someCamera : Camera :=
  mkCamera (mkMat4 (mkVec4 2 0 0 0) (mkVec4 0 3 0 0) (mkVec4 0 0 1 (-1)) (mkVec4 0 0 4 0))
           identityMatrix
           (mkMat4 (mkVec4 1 0 0 0) (mkVec4 0 1 0 0) (mkVec4 0 0 1 0) (mkVec4 5 6 7 1))
           (mkMat4 (mkVec4 1 0 0 0) (mkVec4 0 1 0 0) (mkVec4 0 0 1 0)
                   (mkVec4 (-5) (-6) (-7) 1))
           (mkVec3 5 6 7).

Definition noParameters : AtmosphereMaterialParameters :=
  mkAtmosphereParameters None None None None None None None.

End MaterialCases.

(** ** For the further properties of the hook and of the stories *)

Module HookCases.
Import stdpp.base stdpp.gmap stdpp.strings.
Import CloudsControls CloudsControlsFrame Stories.
Local Open Scope string_scope.
Local Open Scope Q_scope.

(** The names a list of entries writes. *)
Definition keysOf (entries : list (string * Q)) : list string := map fst entries.

(** Uniforms that hold every name of a list of entries, at zero. *)
Definition uniformsFor (entries : list (string * Q)) : gmap string Q :=
  fold_right (fun e m => <[fst e := 0]> m) ∅ entries.

Definition someScattering : ScatteringParams :=
  mkScatteringParams 1 (1 # 50) (7 # 10) (- (1 # 5)) (1 # 2) (5 # 2) 3 (4 # 5) 150.

Definition someCloudsRaymarch : CloudsRaymarchParams :=
  mkCloudsRaymarchParams 500 50 1000 500000 3 2.

Definition someShadowRaymarch : ShadowRaymarchParams :=
  mkShadowRaymarchParams 50 100 1000 2.

(** A pass whose materials have the uniforms the hook writes. *)
Definition readyPass : Pass :=
  mkPass ControlsCases.freshPass true
         (uniformsFor (scatteringEntries someScattering
                       ++ cloudsRaymarchEntries someCloudsRaymarch))
         3 true true
         (uniformsFor (shadowRaymarchEntries someShadowRaymarch)).

(** A pass whose render material lacks the uniform [powderExponent]. *)
Definition lackingPass : Pass :=
  mkPass ControlsCases.freshPass true
         (delete "powderExponent" (renderUniforms readyPass))
         3 true true (shadowUniforms readyPass).

(** The place of an effect in the chain. *)
Definition rank (e : Effect) : nat :=
  match e with
  | AerialPerspective _ => 0
  | LensFlare => 1
  | Depth _ => 2
  | Normal _ => 3
  | ToneMapping => 4
  | HaldLUT _ => 5
  | SMAA => 6
  | Dithering => 7
  end.

Definition isAerialPerspective (e : Effect) : bool :=
  match e with AerialPerspective _ => true | _ => false end.

Definition isToneMapping (e : Effect) : bool :=
  match e with ToneMapping => true | _ => false end.

Definition isDebugView (e : Effect) : bool :=
  match e with Depth _ | Normal _ => true | _ => false end.

(** Whether an [AerialPerspective] of the chain is given a true
    [sunIrradiance], and likewise for the sky. *)
Definition appliesSunIrradiance (e : Effect) : bool :=
  match e with
  | AerialPerspective props =>
      match sunIrradiance props with Some true => true | _ => false end
  | _ => false
  end.

Definition appliesSkyIrradiance (e : Effect) : bool :=
  match e with
  | AerialPerspective props =>
      match skyIrradiance props with Some true => true | _ => false end
  | _ => false
  end.

(** A chain in which each effect comes after those of lower rank, once. *)
Fixpoint ascending (ranks : list nat) : bool :=
  match ranks with
  | a :: (b :: _) as rest => (a <? b)%nat && ascending rest
  | _ => true
  end.

End HookCases.

(** * Properties *)

(** ** Facts about the GLSL built-ins *)

Module GlslFacts.
Import Glsl.

Lemma Qltb_lt (x y : Q) : Qltb x y = true <-> x < y.
Proof. unfold Qltb, Qlt. apply Z.ltb_lt. Qed.

Lemma Qltb_ge (x y : Q) : Qltb x y = false <-> y <= x.
Proof. unfold Qltb, Qle. apply Z.ltb_ge. Qed.

Lemma Qgeb_ge (x y : Q) : Qgeb x y = true <-> y <= x.
Proof. unfold Qgeb. apply Qle_bool_iff. Qed.

Lemma min_spec (x y : Q) : (y < x /\ min x y = y) \/ (x <= y /\ min x y = x).
Proof.
  unfold min. destruct (Qltb y x) eqn:E.
  - left. split; [now apply Qltb_lt | reflexivity].
  - right. split; [now apply Qltb_ge | reflexivity].
Qed.

Lemma max_spec (x y : Q) : (x < y /\ max x y = y) \/ (y <= x /\ max x y = x).
Proof.
  unfold max. destruct (Qltb x y) eqn:E.
  - left. split; [now apply Qltb_lt | reflexivity].
  - right. split; [now apply Qltb_ge | reflexivity].
Qed.

Lemma rem_nonneg_range (x n : Z) : (0 <= x)%Z -> (0 < n)%Z -> (0 <= Z.rem x n < n)%Z.
Proof. intros Hx Hn. apply Z.rem_bound_pos; lia. Qed.

Lemma rem_add_nonneg (f k : Z) :
  (0 <= f)%Z -> (0 <= k)%Z -> Z.rem (f + k) 16 = Z.rem (Z.rem f 16 + k) 16.
Proof.
  intros Hf Hk.
  assert (Hr := rem_nonneg_range f 16 Hf ltac:(lia)).
  rewrite !Z.rem_mod_nonneg by lia.
  rewrite Z.rem_mod_nonneg in Hr by lia.
  rewrite Zplus_mod_idemp_l. reflexivity.
Qed.

End GlslFacts.

(** ** The temporal resolve *)

Module ResolveSpec.
Import Glsl GlslFacts CloudsResolve ResolveCases.

Lemma countIf_map {S T : Type} (p : T -> bool) (f : S -> T) (l : list S) :
  countIf p (map f l) = countIf (fun s => p (f s)) l.
Proof.
  unfold countIf. induction l as [|s l IH]; simpl; [reflexivity|].
  destruct (p (f s)); simpl; now rewrite IH.
Qed.

Lemma countIf_ext_in {T : Type} (p q : T -> bool) (l : list T) :
  (forall t, In t l -> p t = q t) -> countIf p l = countIf q l.
Proof.
  intros H. unfold countIf. now rewrite (filter_ext_in p q l H).
Qed.

Lemma isCurrent_frames (coord : ivec2) (f0 : Z) :
  (0 <= f0)%Z ->
  countIf (isCurrent coord) (frames16 f0)
  = countIf (isCurrent coord) (frames16 (Z.rem f0 16)).
Proof.
  intros Hf. unfold frames16. rewrite !countIf_map.
  apply countIf_ext_in. intros k _. unfold isCurrent.
  rewrite (rem_add_nonneg f0 (Z.of_nat k)) by lia.
  reflexivity.
Qed.

Ltac split_range H :=
  match type of H with
  | (0 <= ?a < _)%Z =>
      let c := fresh "c" in
      assert (c : (a = 0 \/ a = 1 \/ a = 2 \/ a = 3 \/ a = 4 \/ a = 5 \/ a = 6 \/ a = 7
                   \/ a = 8 \/ a = 9 \/ a = 10 \/ a = 11 \/ a = 12 \/ a = 13 \/ a = 14
                   \/ a = 15)%Z) by lia;
      clear H; repeat (destruct c as [c|c]); subst a
  end.

Ltac split_range4 H :=
  match type of H with
  | (0 <= ?a < _)%Z =>
      let c := fresh "c" in
      assert (c : (a = 0 \/ a = 1 \/ a = 2 \/ a = 3)%Z) by lia;
      clear H; repeat (destruct c as [c|c]); subst a
  end.

(** C1. Checkerboard coverage: for a pixel at any (non-negative) window
    position and any sixteen consecutive (unsigned) frame indices, the test
    [int(bayerIndices[x % 4][y % 4]) == frame % 16] that marks the pixel as
    current holds for exactly one of the sixteen frames; and each priority
    in [0,16) is the Bayer value of exactly one position of a 4x4 block. *)
Theorem checkerboard_coverage (coord : ivec2) (f0 p : Z) :
  (0 <= ix coord)%Z -> (0 <= iy coord)%Z -> (0 <= f0)%Z -> (0 <= p < 16)%Z ->
  countIf (isCurrent coord) (frames16 f0) = 1%nat /\
  countIf (fun c => (bayerValue c =? p)%Z) block4x4 = 1%nat.
Proof.
  intros Hx Hy Hf Hp. split.
  - rewrite isCurrent_frames by exact Hf.
    assert (Ha := rem_nonneg_range (ix coord) 4 Hx ltac:(lia)).
    assert (Hb := rem_nonneg_range (iy coord) 4 Hy ltac:(lia)).
    assert (Hc := rem_nonneg_range f0 16 Hf ltac:(lia)).
    unfold frames16. rewrite countIf_map. unfold isCurrent, bayerValue.
    remember (Z.rem (ix coord) 4) as a eqn:Ea.
    remember (Z.rem (iy coord) 4) as b eqn:Eb.
    remember (Z.rem f0 16) as c eqn:Ec.
    clear Ea Eb Ec Hx Hy Hf Hp.
    split_range4 Ha; split_range4 Hb; split_range Hc; vm_compute; reflexivity.
  - split_range Hp; vm_compute; reflexivity.
Qed.

Lemma checkerboard_coverage_witness :
  countIf (isCurrent (mkIvec2 6 9)) (frames16 37) = 1%nat /\
  countIf (fun c => (bayerValue c =? 11)%Z) block4x4 = 1%nat.
Proof. apply (checkerboard_coverage (mkIvec2 6 9) 37 11); simpl; lia. Defined.

(** *** getClosestFragment *)

(** The loop of [getClosestFragment] from any starting [result]. *)
Lemma closest_le_init (l : list vec4) (init : vec4) :
  cr (fold_left closer l init) <= cr init.
Proof.
  revert init. induction l as [|n l IH]; intros init; simpl.
  - apply Qle_refl.
  - eapply Qle_trans; [apply IH|].
    unfold closer. destruct (Qltb (cr n) (cr init)) eqn:E.
    + apply Qltb_lt in E. now apply Qlt_le_weak.
    + apply Qle_refl.
Qed.

Lemma closest_le_each (l : list vec4) (init s : vec4) :
  In s l -> cr (fold_left closer l init) <= cr s.
Proof.
  revert init. induction l as [|n l IH]; intros init Hin; simpl in *.
  - contradiction.
  - destruct Hin as [-> | Hin]; [|now apply IH].
    eapply Qle_trans; [apply closest_le_init|].
    unfold closer. destruct (Qltb (cr s) (cr init)) eqn:E.
    + apply Qle_refl.
    + now apply Qltb_ge in E.
Qed.

Lemma closest_init_or_in (l : list vec4) (init : vec4) :
  fold_left closer l init = init \/ In (fold_left closer l init) l.
Proof.
  revert init. induction l as [|n l IH]; intros init; simpl.
  - now left.
  - destruct (IH (closer init n)) as [H | H].
    + rewrite H. unfold closer. destruct (Qltb (cr n) (cr init)); auto.
    + auto.
Qed.

Lemma closest_keeps_init (l : list vec4) (init : vec4) :
  (forall s, In s l -> cr init <= cr s) -> fold_left closer l init = init.
Proof.
  revert init. induction l as [|n l IH]; intros init H; simpl.
  - reflexivity.
  - assert (E : closer init n = init).
    { unfold closer. destruct (Qltb (cr n) (cr init)) eqn:E; [|reflexivity].
      apply Qltb_lt in E. specialize (H n (or_introl eq_refl)). lra. }
    rewrite E. apply IH. intros s Hs. apply H. now right.
Qed.

Lemma closest_in_neighbors (l : list vec4) (init : vec4) :
  (exists s, In s l /\ cr s < cr init) -> In (fold_left closer l init) l.
Proof.
  intros [s [Hin Hlt]].
  destruct (closest_init_or_in l init) as [E | H]; [|exact H].
  pose proof (closest_le_each l init s Hin) as Hle.
  rewrite E in Hle. lra.
Qed.

Lemma rejected_true (p : vec2) :
  rejected p = true <-> (vx p < 0 \/ 1 < vx p \/ vy p < 0 \/ 1 < vy p).
Proof.
  unfold rejected, Qgtb. rewrite !orb_true_iff, !Qltb_lt. tauto.
Qed.

Lemma rejected_false (p : vec2) :
  rejected p = false <-> (0 <= vx p <= 1 /\ 0 <= vy p <= 1).
Proof.
  unfold rejected, Qgtb. rewrite !orb_false_iff, !Qltb_ge. tauto.
Qed.

(** C7, as stated, fails: with every depth of the window beyond the
    sentinel depth, the fragment whose velocity is used is not one of the
    nine samples, and the velocity used (zero) is no sample's velocity. *)
Lemma closest_fragment_counterexample :
  let dv := getClosestFragment farUniforms (mkIvec2 5 5) in
  ~ In dv (neighbors (depthVelocityBuffer farUniforms) (mkIvec2 5 5)) /\
  (forall s, In s (neighbors (depthVelocityBuffer farUniforms) (mkIvec2 5 5)) ->
             ~ cg s == cg dv).
Proof.
  vm_compute. split.
  - intros H. repeat (destruct H as [H | H]; [discriminate H|]). exact H.
  - intros s H. repeat (destruct H as [H | H]; [subst s; discriminate|]).
    contradiction.
Qed.

(** C7 (amended). Closest-fragment reprojection: when some sample of the
    3x3 window of the depth+velocity buffer has a depth below the initial
    1e7, the fragment whose velocity is used is one of the nine samples and
    its depth is the smallest of the nine; the source UV is the destination
    UV minus that velocity times the texel size, and it is the UV the
    history is read at. *)
Theorem closest_fragment_reprojection
    (d : Defines) (u : Uniforms) (vUv : vec2) (coord : ivec2) :
  (exists s, In s (neighbors (depthVelocityBuffer u) coord) /\ cr s < 1e7) ->
  let dv := getClosestFragment u coord in
  let prevUv := reproject u vUv dv in
  let current := texelFetch (colorBuffer u) coord in
  In dv (neighbors (depthVelocityBuffer u) coord) /\
  (forall s, In s (neighbors (depthVelocityBuffer u) coord) -> cr dv <= cr s) /\
  vx prevUv = vx vUv - cg dv * vx (texelSize u) /\
  vy prevUv = vy vUv - cb dv * vy (texelSize u) /\
  outputColor (temporalAntialias d u vUv coord) =
    (if rejected prevUv then current
     else mix4 (varianceClipping1 (colorBuffer u) coord current
                                  (texture (colorHistoryBuffer u) prevUv))
               current (temporalAlpha u)).
Proof.
  intros H dv prevUv current. repeat split.
  - apply closest_in_neighbors. exact H.
  - intros s Hs. now apply closest_le_each.
  - unfold temporalAntialias. fold dv. fold prevUv. fold current.
    destruct (rejected prevUv); reflexivity.
Qed.

Lemma closest_fragment_reprojection_witness :
  let u := rampUniforms in
  let coord := mkIvec2 5 5 in
  let vUv := mkVec2 (1 # 2) (1 # 2) in
  let dv := getClosestFragment u coord in
  let prevUv := reproject u vUv dv in
  let current := texelFetch (colorBuffer u) coord in
  In dv (neighbors (depthVelocityBuffer u) coord) /\
  (forall s, In s (neighbors (depthVelocityBuffer u) coord) -> cr dv <= cr s) /\
  vx prevUv = vx vUv - cg dv * vx (texelSize u) /\
  vy prevUv = vy vUv - cb dv * vy (texelSize u) /\
  outputColor (temporalAntialias noDefines u vUv coord) =
    (if rejected prevUv then current
     else mix4 (varianceClipping1 (colorBuffer u) coord current
                                  (texture (colorHistoryBuffer u) prevUv))
               current (temporalAlpha u)).
Proof.
  apply (closest_fragment_reprojection noDefines rampUniforms
           (mkVec2 (1 # 2) (1 # 2)) (mkIvec2 5 5)).
  exists (mkVec4 8 1 2 0). split.
  - simpl. left. reflexivity.
  - reflexivity.
Defined.

(** *** Rejection of the history *)

Lemma antialias_rejected (d : Defines) (u : Uniforms) (vUv : vec2) (coord : ivec2) :
  rejected (reproject u vUv (getClosestFragment u coord)) = true ->
  outputColor (temporalAntialias d u vUv coord) = texelFetch (colorBuffer u) coord.
Proof. intros H. unfold temporalAntialias. rewrite H. reflexivity. Qed.

Lemma antialias_accepted (d : Defines) (u : Uniforms) (vUv : vec2) (coord : ivec2) :
  rejected (reproject u vUv (getClosestFragment u coord)) = false ->
  outputColor (temporalAntialias d u vUv coord) =
    mix4 (varianceClipping1 (colorBuffer u) coord (texelFetch (colorBuffer u) coord)
            (texture (colorHistoryBuffer u)
                     (reproject u vUv (getClosestFragment u coord))))
         (texelFetch (colorBuffer u) coord) (temporalAlpha u).
Proof. intros H. unfold temporalAntialias. rewrite H. reflexivity. Qed.

Lemma upscale_current (d : Defines) (u : Uniforms) (vUv : vec2) (coord subCoord : ivec2) :
  outputColor (temporalUpscale d u vUv coord subCoord true)
  = texelFetch (colorBuffer u) subCoord.
Proof. reflexivity. Qed.

Lemma upscale_rejected
    (d : Defines) (u : Uniforms) (vUv : vec2) (coord subCoord : ivec2) (cf : bool) :
  rejected (reproject u vUv (getClosestFragment u subCoord)) = true ->
  outputColor (temporalUpscale d u vUv coord subCoord cf)
  = texelFetch (colorBuffer u) subCoord.
Proof. intros H. unfold temporalUpscale. rewrite H. destruct cf; reflexivity. Qed.

Lemma upscale_accepted
    (d : Defines) (u : Uniforms) (vUv : vec2) (coord subCoord : ivec2) :
  rejected (reproject u vUv (getClosestFragment u subCoord)) = false ->
  outputColor (temporalUpscale d u vUv coord subCoord false) =
    varianceClipping (colorBuffer u) subCoord (texelFetch (colorBuffer u) subCoord)
      (texture (colorHistoryBuffer u)
               (reproject u vUv (getClosestFragment u subCoord)))
      (varianceGamma u).
Proof. intros H. unfold temporalUpscale. rewrite H. reflexivity. Qed.

(** C2. Disocclusion rejection: in both modes, when a coordinate of the
    reprojected UV (destination UV minus velocity times texel size) is
    strictly outside [0,1], the output colour is the raw current-frame
    sample, whatever the history buffers hold; a reprojected UV whose x is
    exactly 0 (y inside [0,1]) passes the test and the output is computed
    from the history read there, while x = -1e-4 is rejected. *)
Theorem disocclusion_rejection
    (d : Defines) (u : Uniforms) (vUv : vec2) (coord subCoord : ivec2)
    (currentFrame : bool) (h hs : sampler2D) (y : Q) :
  let pa := reproject u vUv (getClosestFragment u coord) in
  let pu := reproject u vUv (getClosestFragment u subCoord) in
  let curA := texelFetch (colorBuffer u) coord in
  let curU := texelFetch (colorBuffer u) subCoord in
  ((vx pa < 0 \/ 1 < vx pa \/ vy pa < 0 \/ 1 < vy pa) ->
   outputColor (temporalAntialias d (withHistory u h hs) vUv coord) = curA) /\
  ((vx pu < 0 \/ 1 < vx pu \/ vy pu < 0 \/ 1 < vy pu) ->
   outputColor (temporalUpscale d (withHistory u h hs) vUv coord subCoord currentFrame)
   = curU) /\
  (vx pa == 0 -> 0 <= vy pa <= 1 ->
   outputColor (temporalAntialias d u vUv coord) =
     mix4 (varianceClipping1 (colorBuffer u) coord curA (texture (colorHistoryBuffer u) pa))
          curA (temporalAlpha u)) /\
  (vx pu == 0 -> 0 <= vy pu <= 1 ->
   outputColor (temporalUpscale d u vUv coord subCoord false) =
     varianceClipping (colorBuffer u) subCoord curU (texture (colorHistoryBuffer u) pu)
                      (varianceGamma u)) /\
  (0 <= y <= 1 -> rejected (mkVec2 0.0 y) = false) /\
  rejected (mkVec2 (-1e-4) y) = true.
Proof.
  intros pa pu curA curU.
  split; [|split; [|split; [|split; [|split]]]].
  - intros H. apply (antialias_rejected d (withHistory u h hs)).
    apply rejected_true. exact H.
  - intros H. apply (upscale_rejected d (withHistory u h hs)).
    apply rejected_true. exact H.
  - intros Hx Hy. apply antialias_accepted. apply rejected_false.
    fold pa. rewrite Hx. split; [lra | exact Hy].
  - intros Hx Hy. apply upscale_accepted. apply rejected_false.
    fold pu. rewrite Hx. split; [lra | exact Hy].
  - intros Hy. apply rejected_false. simpl. split; [lra | exact Hy].
  - reflexivity.
Qed.

Lemma disocclusion_rejection_witness :
  let u := edgeUniforms in
  let vUv := mkVec2 (1 # 8) (3 # 4) in
  let c := mkIvec2 1 1 in
  let pa := reproject u vUv (getClosestFragment u c) in
  let cur := texelFetch (colorBuffer u) c in
  vx pa == 0 /\ 0 <= vy pa <= 1 /\
  outputColor (temporalAntialias noDefines u vUv c) =
    mix4 (varianceClipping1 (colorBuffer u) c cur (texture (colorHistoryBuffer u) pa))
         cur (temporalAlpha u) /\
  outputColor (temporalUpscale noDefines u vUv c c false) =
    varianceClipping (colorBuffer u) c cur (texture (colorHistoryBuffer u) pa)
                     (varianceGamma u).
Proof.
  assert (Hx : vx (reproject edgeUniforms (mkVec2 (1 # 8) (3 # 4))
                     (getClosestFragment edgeUniforms (mkIvec2 1 1))) == 0)
    by reflexivity.
  assert (Hy : 0 <= vy (reproject edgeUniforms (mkVec2 (1 # 8) (3 # 4))
                          (getClosestFragment edgeUniforms (mkIvec2 1 1))) <= 1)
    by (split; vm_compute; discriminate).
  pose proof (disocclusion_rejection noDefines edgeUniforms (mkVec2 (1 # 8) (3 # 4))
                (mkIvec2 1 1) (mkIvec2 1 1) false blackBuffer blackBuffer (1 # 2))
    as (_ & _ & Ha & Hu & _ & _).
  cbv zeta. split; [exact Hx | split; [exact Hy | split]].
  - exact (Ha Hx Hy).
  - exact (Hu Hx Hy).
Defined.

(** On the accepted side of the boundary the history does reach the
    output: the same pixel resolved against two histories differs. *)
Example boundary_history_is_used :
  cr (outputColor (temporalUpscale noDefines edgeUniforms
                     (mkVec2 (1 # 8) (3 # 4)) (mkIvec2 1 1) (mkIvec2 1 1) false)) == 1 # 2
  /\
  cr (outputColor (temporalUpscale noDefines (withHistory edgeUniforms blackBuffer blackBuffer)
                     (mkVec2 (1 # 8) (3 # 4)) (mkIvec2 1 1) (mkIvec2 1 1) false)) == 1.
Proof. split; vm_compute; reflexivity. Qed.

(** On the rejected side (destination UV (1/16, 3/4), reprojected to
    (-1/16, 1/2)) the output is the current sample under either history. *)
Example rejected_side_ignores_history :
  outputColor (temporalAntialias noDefines edgeUniforms
                 (mkVec2 (1 # 16) (3 # 4)) (mkIvec2 1 1)) = mkVec4 9 9 9 1 /\
  outputColor (temporalAntialias noDefines (withHistory edgeUniforms blackBuffer blackBuffer)
                 (mkVec2 (1 # 16) (3 # 4)) (mkIvec2 1 1)) = mkVec4 9 9 9 1.
Proof. split; vm_compute; reflexivity. Qed.

(** *** Upscaling *)

(** C3. Upscale-mode postcondition: a pixel that is current this frame
    gets the raw current-frame sample, whatever the history holds; any other
    pixel whose reprojected UV is inside the unit square gets the
    variance-clipped history sample, and the blend weight [temporalAlpha]
    has no part in it. *)
Theorem upscale_postcondition
    (d : Defines) (u : Uniforms) (vUv : vec2) (coord subCoord : ivec2)
    (h hs : sampler2D) (alpha : Q) :
  let current := texelFetch (colorBuffer u) subCoord in
  let prevUv := reproject u vUv (getClosestFragment u subCoord) in
  outputColor (temporalUpscale d (withHistory u h hs) vUv coord subCoord true) = current /\
  (0 <= vx prevUv <= 1 /\ 0 <= vy prevUv <= 1 ->
   outputColor (temporalUpscale d (withAlpha u alpha) vUv coord subCoord false) =
     varianceClipping (colorBuffer u) subCoord current
                      (texture (colorHistoryBuffer u) prevUv) (varianceGamma u)).
Proof.
  intros current prevUv. split.
  - reflexivity.
  - intros H. apply (upscale_accepted d (withAlpha u alpha)).
    apply rejected_false. exact H.
Qed.

Lemma upscale_postcondition_witness :
  let u := edgeUniforms in
  let vUv := mkVec2 (1 # 8) (3 # 4) in
  let c := mkIvec2 1 1 in
  let current := texelFetch (colorBuffer u) c in
  let prevUv := reproject u vUv (getClosestFragment u c) in
  (0 <= vx prevUv <= 1 /\ 0 <= vy prevUv <= 1) /\
  outputColor (temporalUpscale noDefines (withAlpha u (3 # 4)) vUv c c false) =
    varianceClipping (colorBuffer u) c current
                     (texture (colorHistoryBuffer u) prevUv) (varianceGamma u).
Proof.
  assert (H : let prevUv := reproject edgeUniforms (mkVec2 (1 # 8) (3 # 4))
                              (getClosestFragment edgeUniforms (mkIvec2 1 1)) in
              0 <= vx prevUv <= 1 /\ 0 <= vy prevUv <= 1)
    by (repeat split; vm_compute; discriminate).
  cbv zeta. split; [exact H|].
  exact (proj2 (upscale_postcondition noDefines edgeUniforms (mkVec2 (1 # 8) (3 # 4))
                  (mkIvec2 1 1) (mkIvec2 1 1) blackBuffer blackBuffer (3 # 4)) H).
Defined.

(** [main] in upscaling mode hands [temporalUpscale] the quarter-size
    coordinate and the Bayer test; without the shadow-length debug view its
    colour is the colour [temporalUpscale] writes. *)
Lemma main_upscaling (d : Defines) (u : Uniforms) (vUv : vec2) (coord : ivec2) :
  TEMPORAL_UPSCALING d = true -> DEBUG_SHOW_SHADOW_LENGTH d = false ->
  outputColor (main d u vUv coord) =
  outputColor (temporalUpscale d u vUv coord
                 (mkIvec2 (Z.quot (ix coord) 4) (Z.quot (iy coord) 4))
                 (isCurrent coord (frame u))).
Proof.
  intros Hu Hd. unfold main. rewrite Hu, Hd, andb_false_r. reflexivity.
Qed.

(** [main] without upscaling is [temporalAntialias] at the pixel itself. *)
Lemma main_antialias (d : Defines) (u : Uniforms) (vUv : vec2) (coord : ivec2) :
  TEMPORAL_UPSCALING d = false -> DEBUG_SHOW_SHADOW_LENGTH d = false ->
  main d u vUv coord = temporalAntialias d u vUv coord.
Proof.
  intros Hu Hd. unfold main. rewrite Hu, Hd, andb_false_r. reflexivity.
Qed.

(** *** The sentinel *)

(** C10. Sentinel edge case: when all nine depths of the 3x3 window around
    the coordinate given to [getClosestFragment] ([coord] when antialiasing,
    the quarter-size [subCoord] when upscaling) are at least 1e7, [getClosestFragment] returns (1e7, 0, 0, 0); the velocity is
    then zero, the reprojected UV is the destination UV, and for a
    destination UV in the unit square the history is not rejected: the
    antialias output is the blend of the clipped history with the current
    sample, the upscale output of a non-current pixel the clipped history. *)
Theorem sentinel_keeps_history
    (d : Defines) (u : Uniforms) (vUv : vec2) (fullCoord coord : ivec2) :
  (forall s, In s (neighbors (depthVelocityBuffer u) coord) -> 1e7 <= cr s) ->
  0 <= vx vUv <= 1 -> 0 <= vy vUv <= 1 ->
  let dv := getClosestFragment u coord in
  let prevUv := reproject u vUv dv in
  let current := texelFetch (colorBuffer u) coord in
  dv = mkVec4 1e7 0 0 0 /\
  vx prevUv == vx vUv /\ vy prevUv == vy vUv /\
  rejected prevUv = false /\
  outputColor (temporalAntialias d u vUv coord) =
    mix4 (varianceClipping1 (colorBuffer u) coord current
                            (texture (colorHistoryBuffer u) prevUv))
         current (temporalAlpha u) /\
  outputColor (temporalUpscale d u vUv fullCoord coord false) =
    varianceClipping (colorBuffer u) coord current
                     (texture (colorHistoryBuffer u) prevUv) (varianceGamma u).
Proof.
  intros Hfar Hx Hy dv prevUv current.
  assert (Edv : dv = sentinel).
  { unfold dv, getClosestFragment. apply closest_keeps_init. exact Hfar. }
  assert (Ex : vx prevUv == vx vUv).
  { unfold prevUv. rewrite Edv. simpl. ring. }
  assert (Ey : vy prevUv == vy vUv).
  { unfold prevUv. rewrite Edv. simpl. ring. }
  assert (Hrej : rejected prevUv = false).
  { apply rejected_false. rewrite Ex, Ey. split; assumption. }
  split; [exact Edv | split; [exact Ex | split; [exact Ey | split; [exact Hrej | split]]]].
  - now apply antialias_accepted.
  - now apply upscale_accepted.
Qed.

Lemma sentinel_keeps_history_witness :
  let u := farUniforms in
  let vUv := mkVec2 (1 # 2) (1 # 4) in
  let coord := mkIvec2 5 5 in
  let dv := getClosestFragment u coord in
  let prevUv := reproject u vUv dv in
  let current := texelFetch (colorBuffer u) coord in
  dv = mkVec4 1e7 0 0 0 /\
  vx prevUv == vx vUv /\ vy prevUv == vy vUv /\
  rejected prevUv = false /\
  outputColor (temporalAntialias noDefines u vUv coord) =
    mix4 (varianceClipping1 (colorBuffer u) coord current
                            (texture (colorHistoryBuffer u) prevUv))
         current (temporalAlpha u) /\
  outputColor (temporalUpscale noDefines u vUv (mkIvec2 21 22) coord false) =
    varianceClipping (colorBuffer u) coord current
                     (texture (colorHistoryBuffer u) prevUv) (varianceGamma u).
Proof.
  apply (sentinel_keeps_history noDefines farUniforms (mkVec2 (1 # 2) (1 # 4))
           (mkIvec2 5 5) (mkIvec2 21 22)).
  - intros s H. simpl in H.
    repeat (destruct H as [H | H]; [subst s; vm_compute; discriminate|]).
    contradiction.
  - simpl. lra.
  - simpl. lra.
Defined.

(** *** Variance clipping *)

Lemma chan_sum4 (c : channel) (l : list vec4) :
  chan c (sum4 l) = total (map (chan c) l).
Proof.
  induction l as [|v l IH]; simpl.
  - destruct c; reflexivity.
  - rewrite <- IH. destruct c; reflexivity.
Qed.

Lemma total_nonneg (l : list Q) : (forall q, In q l -> 0 <= q) -> 0 <= total l.
Proof.
  induction l as [|q l IH]; intros H; simpl.
  - apply Qle_refl.
  - assert (0 <= q) by (apply H; now left).
    assert (0 <= total l) by (apply IH; intros r Hr; apply H; now right).
    lra.
Qed.

Lemma count_nonneg (l : list vec4) : 0 <= count l.
Proof.
  unfold count. change 0 with (inject_Z 0). rewrite <- Zle_Qle. lia.
Qed.

Lemma div_nonneg (a b : Q) : 0 <= a -> 0 <= b -> 0 <= a / b.
Proof.
  intros Ha Hb. unfold Qdiv. apply Qmult_le_0_compat; [exact Ha|].
  now apply Qinv_le_0_compat.
Qed.

Lemma square_nonneg (x : Q) : 0 <= x * x.
Proof. destruct (Qlt_le_dec x 0); nra. Qed.

Lemma variance_nonneg (c : channel) (l : list vec4) : 0 <= chan c (variance l).
Proof.
  unfold variance.
  assert (H : 0 <= chan c (sum4 (map (fun w => zip4 (fun p q => (p - q) * (p - q)) w (mean l)) l))).
  { rewrite chan_sum4. apply total_nonneg. intros q Hq.
    rewrite map_map in Hq. apply in_map_iff in Hq. destruct Hq as [w [<- _]].
    destruct c; cbn [chan zip4 cr cg cb ca]; apply square_nonneg. }
  destruct c; simpl in *; apply div_nonneg; auto using count_nonneg.
Qed.

Lemma reach_range (e d : Q) : 0 <= e -> 0 <= reach e d <= 1.
Proof.
  intros He. unfold reach. destruct (Qle_bool (Qabs d) e) eqn:E.
  - lra.
  - assert (Hlt : e < Qabs d).
    { apply Qnot_le_lt. intros H. apply Qle_bool_iff in H. congruence. }
    split.
    + apply div_nonneg; lra.
    + apply Qle_shift_div_r; lra.
Qed.

Lemma reach_bound (e d t : Q) :
  0 <= e -> 0 <= t -> t <= reach e d -> - e <= t * d <= e.
Proof.
  intros He Ht Hr.
  assert (Habs : t * Qabs d <= e).
  { unfold reach in Hr. destruct (Qle_bool (Qabs d) e) eqn:E.
    - apply Qle_bool_iff in E. pose proof (Qabs_nonneg d). nra.
    - assert (Hlt : e < Qabs d).
      { apply Qnot_le_lt. intros H. apply Qle_bool_iff in H. congruence. }
      assert (Hd : e / Qabs d * Qabs d == e) by (field; lra).
      assert (t * Qabs d <= e / Qabs d * Qabs d) by (apply Qmult_le_compat_r; lra).
      lra. }
  revert Habs.
  apply (Qabs_case d (fun a => t * a <= e -> - e <= t * d <= e)); intros Hd H; nra.
Qed.

Lemma min4_le (a b c d : Q) :
  let t := min (min a b) (min c d) in t <= a /\ t <= b /\ t <= c /\ t <= d.
Proof.
  cbv zeta.
  destruct (min_spec a b) as [[? ->] | [? ->]];
  destruct (min_spec c d) as [[? ->] | [? ->]];
  match goal with |- context [min ?x ?y] =>
    destruct (min_spec x y) as [[? ->] | [? ->]] end; lra.
Qed.

Lemma min4_nonneg (a b c d : Q) :
  0 <= a -> 0 <= b -> 0 <= c -> 0 <= d -> 0 <= min (min a b) (min c d).
Proof.
  intros.
  destruct (min_spec a b) as [[? ->] | [? ->]];
  destruct (min_spec c d) as [[? ->] | [? ->]];
  match goal with |- context [min ?x ?y] =>
    destruct (min_spec x y) as [[? ->] | [? ->]] end; lra.
Qed.

(** The clamp into a box of non-negative half-widths [e] around [m]. *)
Lemma clipToBox_inside (m e history : vec4) :
  (forall c, 0 <= chan c e) ->
  (forall c, chan c m - chan c e <= chan c (clipToBox m e history)
             <= chan c m + chan c e) /\
  exists s, 0 <= s <= 1 /\
    forall c, chan c (clipToBox m e history)
              == chan c m + s * (chan c history - chan c m).
Proof.
  intros He. unfold clipToBox.
  set (d := zip4 Qminus history m).
  set (s := zip4 reach e d).
  set (t := min (min (cr s) (cg s)) (min (cb s) (ca s))).
  assert (Hs : forall c, chan c s = reach (chan c e) (chan c d))
    by (intros c; destruct c; reflexivity).
  assert (Hd : forall c, chan c d = chan c history - chan c m)
    by (intros c; destruct c; reflexivity).
  assert (Hle : forall c, t <= chan c s).
  { pose proof (min4_le (cr s) (cg s) (cb s) (ca s)) as H. cbv zeta in H. fold t in H.
    intros c; destruct c; simpl; tauto. }
  assert (Hrange : forall c, 0 <= chan c s <= 1).
  { intros c. rewrite Hs. apply reach_range. apply He. }
  assert (Ht0 : 0 <= t).
  { apply min4_nonneg; [apply (Hrange R) | apply (Hrange G) | apply (Hrange B)
                        | apply (Hrange A)]. }
  destruct (Qle_bool 1 t) eqn:E.
  - apply Qle_bool_iff in E.
    assert (Hb : forall c, - chan c e <= 1 * chan c d <= chan c e).
    { intros c. apply reach_bound; [apply He | lra |].
      rewrite <- Hs. specialize (Hle c). specialize (Hrange c). lra. }
    split.
    + intros c. specialize (Hb c). rewrite Hd in Hb. lra.
    + exists 1. split; [lra|]. intros c. ring.
  - assert (Hlt : t < 1).
    { apply Qnot_le_lt. intros H. apply Qle_bool_iff in H. congruence. }
    assert (Hb : forall c, - chan c e <= t * chan c d <= chan c e).
    { intros c. apply reach_bound; [apply He | exact Ht0 |].
      rewrite <- Hs. apply Hle. }
    assert (Hout : forall c, chan c (zip4 Qplus m (map4 (fun q => t * q) d))
                             = chan c m + t * chan c d)
      by (intros c; destruct c; reflexivity).
    split.
    + intros c. rewrite Hout. specialize (Hb c). lra.
    + exists t. split; [lra|]. intros c. rewrite Hout, Hd. reflexivity.
Qed.

(** C6, as stated, fails for a negative gamma: around a window of non-zero
    variance the interval [mean - gamma*variance, mean + gamma*variance] is
    then empty, so no result can lie in it.  Here the red channel has mean
    1 and variance 8. *)
Lemma variance_clip_counterexample :
  let current := texelFetch dotBuffer (mkIvec2 1 1) in
  let w := window dotBuffer (mkIvec2 1 1) current in
  let out := varianceClipping dotBuffer (mkIvec2 1 1) current
                              (mkVec4 (1 # 2) (1 # 2) (1 # 2) 1) (-1) in
  ~ (chan R (mean w) - (-1) * chan R (variance w) <= chan R out
     <= chan R (mean w) + (-1) * chan R (variance w)).
Proof.
  cbv zeta. intros [H1 H2].
  pose proof (Qle_trans _ _ _ H1 H2) as H.
  vm_compute in H. apply H. reflexivity.
Qed.

(** C6 (amended). Variance-clip bound: for every current-frame
    neighbourhood, every history sample and every gamma that is not
    negative, the result of [varianceClipping] lies per channel within
    [mean - gamma*variance, mean + gamma*variance], mean and variance being
    those of the current sample's local window, and it lies on the segment
    from the mean to the history sample. *)
Theorem variance_clip_bound
    (buf : sampler2D) (coord : ivec2) (current history : vec4) (gamma : Q) :
  0 <= gamma ->
  let w := window buf coord current in
  let out := varianceClipping buf coord current history gamma in
  (forall c, chan c (mean w) - gamma * chan c (variance w) <= chan c out
             <= chan c (mean w) + gamma * chan c (variance w)) /\
  exists s, 0 <= s <= 1 /\
    forall c, chan c out == chan c (mean w) + s * (chan c history - chan c (mean w)).
Proof.
  intros Hg w out.
  assert (He : forall c, chan c (map4 (fun v => v * gamma) (variance w))
                         = chan c (variance w) * gamma)
    by (intros c; destruct c; reflexivity).
  destruct (clipToBox_inside (mean w) (map4 (fun v => v * gamma) (variance w)) history)
    as [Hbox Hseg].
  { intros c. rewrite He. apply Qmult_le_0_compat; [apply variance_nonneg | exact Hg]. }
  split.
  - intros c. specialize (Hbox c). rewrite He in Hbox. unfold out, varianceClipping.
    fold w. lra.
  - exact Hseg.
Qed.

Lemma variance_clip_bound_witness :
  let current := texelFetch dotBuffer (mkIvec2 1 1) in
  let history := mkVec4 20 (1 # 2) (-3) 1 in
  let w := window dotBuffer (mkIvec2 1 1) current in
  let out := varianceClipping dotBuffer (mkIvec2 1 1) current history 1 in
  (forall c, chan c (mean w) - 1 * chan c (variance w) <= chan c out
             <= chan c (mean w) + 1 * chan c (variance w)) /\
  exists s, 0 <= s <= 1 /\
    forall c, chan c out == chan c (mean w) + s * (chan c history - chan c (mean w)).
Proof.
  apply (variance_clip_bound dotBuffer (mkIvec2 1 1)
           (texelFetch dotBuffer (mkIvec2 1 1)) (mkVec4 20 (1 # 2) (-3) 1) 1).
  lra.
Defined.

(** The clamp at work: the history (20, 1/2, -3, 1) is pulled to the face
    of the box [-7, 9]^3 x [1, 1] it leaves first. *)
Example variance_clip_example :
  let out := varianceClipping dotBuffer (mkIvec2 1 1) (texelFetch dotBuffer (mkIvec2 1 1))
                              (mkVec4 20 (1 # 2) (-3) 1) 1 in
  cr out == 9 /\ cg out == 15 # 19 /\ cb out == - (13 # 19) /\ ca out == 1.
Proof. repeat split; vm_compute; reflexivity. Qed.

End ResolveSpec.

(** ** The aerial perspective effect *)

Module AerialSpec.
Import Glsl GlslFacts AerialPerspective AerialCases.

Lemma mix3_lerp3 (a b : vec3) (t : Q) : eq3 (mix3 a b t) (lerp3 a b t).
Proof. unfold eq3, mix3, lerp3, mix; simpl. repeat split; ring. Qed.

Lemma clamp01_cases (x : Q) :
  (x <= 0 /\ clamp x 0 1 = 0) \/
  (0 <= x <= 1 /\ clamp x 0 1 = x) \/
  (1 <= x /\ clamp x 0 1 = 1).
Proof.
  unfold clamp.
  destruct (max_spec x 0) as [[H1 ->] | [H1 ->]].
  - left. split; [lra|].
    destruct (min_spec 0 1) as [[H2 E] | [H2 E]]; [lra | exact E].
  - destruct (min_spec x 1) as [[H2 ->] | [H2 ->]].
    + right. right. split; [lra | reflexivity].
    + right. left. split; [lra | reflexivity].
Qed.

Lemma clamp01_range (x : Q) : 0 <= clamp x 0 1 <= 1.
Proof.
  destruct (clamp01_cases x) as [[H ->] | [[H ->] | [H ->]]]; lra.
Qed.

Lemma clamp01_mono (x y : Q) : x <= y -> clamp x 0 1 <= clamp y 0 1.
Proof.
  intros Hxy.
  destruct (clamp01_cases x) as [[Hx ->] | [[Hx ->] | [Hx ->]]];
  destruct (clamp01_cases y) as [[Hy ->] | [[Hy ->] | [Hy ->]]]; lra.
Qed.

(** The cubic of [smoothstep] does not decrease on [0,1]. *)
Lemma hermite_mono (a b : Q) :
  0 <= a -> a <= b -> b <= 1 -> a * a * (3 - 2 * a) <= b * b * (3 - 2 * b).
Proof.
  intros Ha Hab Hb.
  assert (H1 : 0 <= a * (3 - 2 * a - b)) by (apply Qmult_le_0_compat; lra).
  assert (H2 : 0 <= b * (3 - 2 * b - a)) by (apply Qmult_le_0_compat; lra).
  assert (H3 : 0 <= (b - a) * (a * (3 - 2 * a - b) + b * (3 - 2 * b - a)))
    by (apply Qmult_le_0_compat; lra).
  lra.
Qed.

Lemma ratio_mono (e0 e1 x y : Q) :
  e0 < e1 -> x <= y -> (x - e0) / (e1 - e0) <= (y - e0) / (e1 - e0).
Proof.
  intros He Hxy. unfold Qdiv. apply Qmult_le_compat_r; [lra|].
  apply Qinv_le_0_compat. lra.
Qed.

Lemma smoothstep_low (e0 e1 x : Q) : e0 < e1 -> x <= e0 -> smoothstep e0 e1 x == 0.
Proof.
  intros He Hx. unfold smoothstep.
  assert (H : (x - e0) / (e1 - e0) <= 0).
  { apply Qle_shift_div_r; lra. }
  destruct (clamp01_cases ((x - e0) / (e1 - e0))) as [[_ ->] | [[H' ->] | [H' _]]].
  - ring.
  - assert (E : (x - e0) / (e1 - e0) == 0) by lra. rewrite E. ring.
  - lra.
Qed.

Lemma smoothstep_high (e0 e1 x : Q) : e0 < e1 -> e1 <= x -> smoothstep e0 e1 x == 1.
Proof.
  intros He Hx. unfold smoothstep.
  assert (H : 1 <= (x - e0) / (e1 - e0)).
  { apply Qle_shift_div_l; lra. }
  destruct (clamp01_cases ((x - e0) / (e1 - e0))) as [[H' _] | [[H' ->] | [_ ->]]].
  - lra.
  - assert (E : (x - e0) / (e1 - e0) == 1) by lra. rewrite E. ring.
  - ring.
Qed.

Lemma smoothstep_mono (e0 e1 x y : Q) :
  e0 < e1 -> x <= y -> smoothstep e0 e1 x <= smoothstep e0 e1 y.
Proof.
  intros He Hxy. unfold smoothstep.
  pose proof (clamp01_range ((x - e0) / (e1 - e0))).
  pose proof (clamp01_range ((y - e0) / (e1 - e0))).
  apply hermite_mono; try tauto.
  apply clamp01_mono. now apply ratio_mono.
Qed.

(** C5. Horizon-correction interpolation factor: for a height range
    minHeight < maxHeight, t = smoothstep(minHeight, maxHeight,
    cameraHeight) is 0 for every camera height at or below minHeight, 1 for
    every one at or above maxHeight, and does not decrease with the camera
    height; [correctGeometricError] returns the linear interpolation by t
    from the reconstructed position and normal toward the ellipsoid-derived
    ones. *)
Theorem horizon_correction_factor
    (inc : Includes) (u : Uniforms) (minHeight maxHeight : Q)
    (worldPosition worldNormal : vec3) :
  minHeight < maxHeight ->
  let t := smoothstep minHeight maxHeight in
  (forall h, h <= minHeight -> t h == 0) /\
  (forall h, maxHeight <= h -> t h == 1) /\
  (forall h1 h2, h1 <= h2 -> t h1 <= t h2) /\
  let normal :=
    normalize inc (zip3 Qmult (map3 (fun r => 1.0 / r) (vEllipsoidRadiiSquared u))
                              worldPosition) in
  let position := map3 (Qmult (u_bottom_radius inc)) normal in
  let out := correctGeometricError inc u minHeight maxHeight worldPosition worldNormal in
  eq3 (fst out) (lerp3 worldPosition position (t (cameraHeight u))) /\
  eq3 (snd out) (lerp3 worldNormal normal (t (cameraHeight u))).
Proof.
  intros He t. split; [|split; [|split]].
  - intros h Hh. now apply smoothstep_low.
  - intros h Hh. now apply smoothstep_high.
  - intros h1 h2 Hh. now apply smoothstep_mono.
  - intros normal position out. split; apply mix3_lerp3.
Qed.

(** The value the depth is compared with. *)
Lemma far_threshold : 1.0 - 1e-7 == 9999999 # 10000000.
Proof. reflexivity. Qed.

(** C4. Far-plane identity: for a pixel whose depth is at least
    1.0 - 1e-7, and so for depth 1.0, the output colour is the input colour
    itself, whatever the defines, the uniforms and the included functions
    (depth linearisation, position reconstruction, atmosphere model) are. *)
Theorem far_plane_identity
    (inc : Includes) (d : Defines) (u : Uniforms) (inputColor : vec4) (uv : vec2) :
  (1.0 - 1e-7 <= readDepth inc uv -> mainImage inc d u inputColor uv = inputColor) /\
  (readDepth inc uv == 1.0 -> mainImage inc d u inputColor uv = inputColor).
Proof.
  assert (H : 1.0 - 1e-7 <= readDepth inc uv -> mainImage inc d u inputColor uv = inputColor).
  { intros Hd. unfold mainImage.
    apply Qgeb_ge in Hd. rewrite Hd. reflexivity. }
  split; [exact H|].
  intros E. apply H. rewrite E, far_threshold. unfold Qle. simpl. lia.
Qed.

(** C9. Alpha frame condition: the alpha of the output is the alpha of the
    input, on the pass-through branch and on the shaded branch, for every
    choice of the defines. *)
Theorem alpha_frame_condition
    (inc : Includes) (d : Defines) (u : Uniforms) (inputColor : vec4) (uv : vec2) :
  ca (mainImage inc d u inputColor uv) = ca inputColor.
Proof.
  unfold mainImage.
  destruct (Qgeb (readDepth inc uv) (1.0 - 1e-7)); [reflexivity|].
  destruct (if CORRECT_GEOMETRIC_ERROR d then _ else _) as [wp wn].
  reflexivity.
Qed.

Lemma far_plane_identity_witness :
  readDepth (flatIncludes 1.0) (mkVec2 (1 # 2) (1 # 2)) == 1.0 /\
  mainImage (flatIncludes 1.0) allDefines (flatUniforms 5000)
            (mkVec4 (1 # 4) (1 # 2) (3 # 4) (1 # 3)) (mkVec2 (1 # 2) (1 # 2))
  = mkVec4 (1 # 4) (1 # 2) (3 # 4) (1 # 3).
Proof.
  split; [reflexivity|].
  apply (proj2 (far_plane_identity (flatIncludes 1.0) allDefines (flatUniforms 5000)
                  (mkVec4 (1 # 4) (1 # 2) (3 # 4) (1 # 3)) (mkVec2 (1 # 2) (1 # 2)))).
  reflexivity.
Defined.

(** Just below the threshold the pixel is shaded: the colour changes, the
    alpha does not. *)
Example shaded_pixel :
  let out := mainImage (flatIncludes (1 # 2)) allDefines (flatUniforms 5000)
                       (mkVec4 (1 # 4) (1 # 2) (3 # 4) (1 # 3)) (mkVec2 (1 # 2) (1 # 2)) in
  cr out == 4 # 15 /\ cg out == 13 # 30 /\ cb out == 3 # 5 /\ ca out = 1 # 3.
Proof. repeat split; vm_compute; reflexivity. Qed.

Lemma horizon_correction_factor_witness :
  let inc := flatIncludes (1 # 2) in
  let u := flatUniforms 51000 in
  let wp := mkVec3 8 0 4 in
  let wn := mkVec3 0 0 1 in
  let t := smoothstep 2000 100000 in
  (forall h, h <= 2000 -> t h == 0) /\
  (forall h, 100000 <= h -> t h == 1) /\
  (forall h1 h2, h1 <= h2 -> t h1 <= t h2) /\
  let normal :=
    normalize inc (zip3 Qmult (map3 (fun r => 1.0 / r) (vEllipsoidRadiiSquared u)) wp) in
  let position := map3 (Qmult (u_bottom_radius inc)) normal in
  let out := correctGeometricError inc u 2000 100000 wp wn in
  eq3 (fst out) (lerp3 wp position (t (cameraHeight u))) /\
  eq3 (snd out) (lerp3 wn normal (t (cameraHeight u))).
Proof.
  apply (horizon_correction_factor (flatIncludes (1 # 2)) (flatUniforms 51000)
           2000 100000 (mkVec3 8 0 4) (mkVec3 0 0 1)).
  reflexivity.
Defined.

(** Half way up the range the factor is one half. *)
Example horizon_factor_midway : smoothstep 2000 100000 51000 == 1 # 2.
Proof. vm_compute. reflexivity. Qed.

End AerialSpec.

(** ** The debug controls *)

Module ControlsSpec.
Import stdpp.base stdpp.gmap stdpp.strings.
Import CloudsControls ControlsCases.
Local Open Scope string_scope.

Lemma lookup_setDefine (flag : bool) (name key : string) (m : gmap string string) :
  setDefine flag name m !! key =
  if decide (name = key) then (if flag then Some "1" else None) else m !! key.
Proof.
  unfold setDefine. destruct flag.
  - rewrite lookup_insert. reflexivity.
  - rewrite lookup_delete. destruct (decide (name = key)); reflexivity.
Qed.

Lemma defined_setDefine_eq (flag : bool) (name : string) (m : gmap string string) (nu : bool) :
  defined (mkMaterial (setDefine flag name m) nu) name = flag.
Proof.
  unfold defined. simpl. rewrite lookup_setDefine.
  destruct (decide (name = name)) as [_ | Hne]; [|congruence].
  destruct flag; reflexivity.
Qed.

Lemma defined_setDefine_ne
    (flag : bool) (name key : string) (m : gmap string string) (nu : bool) :
  name <> key ->
  defined (mkMaterial (setDefine flag name m) nu) key = defined (mkMaterial m nu) key.
Proof.
  intros Hne. unfold defined. simpl. rewrite lookup_setDefine.
  destruct (decide (name = key)) as [E | _]; [congruence | reflexivity].
Qed.

Ltac read_define :=
  repeat first
    [ apply defined_setDefine_eq
    | rewrite defined_setDefine_ne by discriminate ].

(** C8, as stated, fails: the debug views are independent switches, so two
    can be on together (here sample count and front depth, both defined on
    the render material after one render), and the cascade view and the
    velocity view leave [toneMapping] on. *)
Lemma debug_exclusivity_counterexample :
  (exists p, passOf twoDebugViews (Some freshPass) = Some p /\
             activeOverrides p = ["DEBUG_SHOW_SAMPLE_COUNT"; "DEBUG_SHOW_FRONT_DEPTH"] /\
             ~ (length (activeOverrides p) <= 1)%nat) /\
  (exists p, passOf cascadesView (Some freshPass) = Some p /\
             activeOverrides p = ["DEBUG_SHOW_CASCADES"] /\
             toneMapping (paramsOf cascadesView (Some freshPass)) = true) /\
  (exists p, passOf velocityView (Some freshPass) = Some p /\
             activeOverrides p = ["DEBUG_SHOW_VELOCITY"] /\
             toneMapping (paramsOf velocityView (Some freshPass)) = true).
Proof.
  split; [|split].
  - eexists. split; [reflexivity|]. split; [vm_compute; reflexivity|].
    vm_compute. lia.
  - eexists. split; [reflexivity|]. split; vm_compute; reflexivity.
  - eexists. split; [reflexivity|]. split; vm_compute; reflexivity.
Qed.

(** C8 (amended). Each debug view is switched by its own flag: after a
    render the materials define the symbol of a view exactly when its flag
    is on, so any number of views can be active together; and whenever the
    sample count, front depth, shadow map, UV flow or shadow-length view is
    on, the returned [toneMapping] is false. *)
Theorem debug_views_and_tone_mapping (c : Controls) (p : CloudsPass) :
  (exists p', passOf c (Some p) = Some p' /\
     defined (currentMaterial p') "DEBUG_SHOW_SAMPLE_COUNT" = showSampleCount c /\
     defined (currentMaterial p') "DEBUG_SHOW_FRONT_DEPTH" = showFrontDepth c /\
     defined (currentMaterial p') "DEBUG_SHOW_SHADOW_MAP" = showShadowMap c /\
     defined (currentMaterial p') "DEBUG_SHOW_CASCADES" = showCascades c /\
     defined (currentMaterial p') "DEBUG_SHOW_UV" = showUv c /\
     defined (resolveMaterial p') "DEBUG_SHOW_SHADOW_LENGTH" = showShadowLength c /\
     defined (resolveMaterial p') "DEBUG_SHOW_VELOCITY" = showVelocity c) /\
  (forall pass,
     showSampleCount c || showFrontDepth c || showShadowMap c || showUv c
       || showShadowLength c = true ->
     toneMapping (paramsOf c pass) = false).
Proof.
  split.
  - eexists. split; [reflexivity|]. cbn [currentMaterial resolveMaterial].
    repeat split; read_define.
  - intros pass H. unfold paramsOf, useCloudsControls, controlParams. simpl.
    destruct (showSampleCount c), (showFrontDepth c), (showShadowMap c), (showUv c),
             (showShadowLength c); simpl in *; congruence.
Qed.

Lemma debug_views_and_tone_mapping_witness :
  let c := mkControls true true false false true false false false false in
  showSampleCount c || showFrontDepth c || showShadowMap c || showUv c
    || showShadowLength c = true /\
  toneMapping (paramsOf c (Some freshPass)) = false.
Proof.
  cbv zeta. split; [reflexivity|].
  apply (proj2 (debug_views_and_tone_mapping
                  (mkControls true true false false true false false false false)
                  freshPass)).
  reflexivity.
Defined.

End ControlsSpec.

(** * Further properties *)

(** ** Of the temporal resolve *)

Module ResolveMore.
Import Glsl GlslFacts CloudsResolve ResolveCases MoreCases.

(** The loop of [getClosestFragment] keeps the first of the samples that
    share the smallest depth. *)
Lemma closest_first_minimum (l : list vec4) (init : vec4) :
  (fold_left closer l init = init /\ forall s, In s l -> cr init <= cr s) \/
  (exists before after,
     l = before ++ fold_left closer l init :: after /\
     cr (fold_left closer l init) < cr init /\
     (forall s, In s before -> cr (fold_left closer l init) < cr s) /\
     (forall s, In s after -> cr (fold_left closer l init) <= cr s)).
Proof.
  revert init. induction l as [|n l IH]; intros init.
  - left. split; [reflexivity | intros s []].
  - cbn [fold_left].
    destruct (Qltb (cr n) (cr init)) eqn:E.
    + assert (Ec : closer init n = n) by (unfold closer; now rewrite E).
      rewrite Ec. apply Qltb_lt in E. right.
      destruct (IH n) as [[Er Hall] | (b & a & El & Hlt & Hb & Ha)].
      * exists [], l. rewrite Er. simpl. repeat split; auto. intros s [].
      * exists (n :: b), a. repeat split.
        -- simpl. f_equal. exact El.
        -- lra.
        -- intros s [<- | Hs]; [exact Hlt | now apply Hb].
        -- exact Ha.
    + assert (Ec : closer init n = init) by (unfold closer; now rewrite E).
      rewrite Ec. apply Qltb_ge in E.
      destruct (IH init) as [[Er Hall] | (b & a & El & Hlt & Hb & Ha)].
      * left. split; [exact Er|]. intros s [<- | Hs]; [exact E | now apply Hall].
      * right. exists (n :: b), a. repeat split.
        -- simpl. f_equal. exact El.
        -- exact Hlt.
        -- intros s [<- | Hs]; [lra | now apply Hb].
        -- exact Ha.
Qed.

(** X1. Ties in [getClosestFragment]: when some sample of the window is
    nearer than 1e7, the fragment returned is the first sample, in the order
    of [neighborOffsets], that has the smallest depth: every sample before
    it is strictly farther, every sample after it at least as far. *)
Theorem closest_fragment_is_first_minimum (u : Uniforms) (coord : ivec2) :
  (exists s, In s (neighbors (depthVelocityBuffer u) coord) /\ cr s < 1e7) ->
  exists before after,
    neighbors (depthVelocityBuffer u) coord
      = before ++ getClosestFragment u coord :: after /\
    (forall s, In s before -> cr (getClosestFragment u coord) < cr s) /\
    (forall s, In s after -> cr (getClosestFragment u coord) <= cr s).
Proof.
  intros [s [Hin Hlt]]. unfold getClosestFragment.
  destruct (closest_first_minimum (neighbors (depthVelocityBuffer u) coord) sentinel)
    as [[_ Hall] | (b & a & El & _ & Hb & Ha)].
  - specialize (Hall s Hin). change (cr sentinel) with 1e7 in Hall. lra.
  - exists b, a. auto.
Qed.

Lemma closest_fragment_is_first_minimum_witness :
  exists before after,
    neighbors (depthVelocityBuffer rampUniforms) (mkIvec2 5 5)
      = before ++ getClosestFragment rampUniforms (mkIvec2 5 5) :: after /\
    (forall s, In s before -> cr (getClosestFragment rampUniforms (mkIvec2 5 5)) < cr s) /\
    (forall s, In s after -> cr (getClosestFragment rampUniforms (mkIvec2 5 5)) <= cr s).
Proof.
  apply (closest_fragment_is_first_minimum rampUniforms (mkIvec2 5 5)).
  exists (mkVec4 8 1 2 0). split; [simpl; left; reflexivity | reflexivity].
Defined.

Lemma rem4_offset (b i : Z) : (0 <= b)%Z -> (0 <= i < 4)%Z -> Z.rem (4 * b + i) 4 = i.
Proof.
  intros Hb Hi. rewrite Z.rem_mod_nonneg by lia.
  rewrite Z.add_comm, Z.mul_comm, Z_mod_plus_full. apply Z.mod_small. lia.
Qed.

Lemma quot4_offset (b i : Z) : (0 <= b)%Z -> (0 <= i < 4)%Z -> Z.quot (4 * b + i) 4 = b.
Proof.
  intros Hb Hi. rewrite Z.quot_div_nonneg by lia.
  symmetry. apply (Z.div_unique_pos _ _ _ i); lia.
Qed.

Lemma block4x4_range (p : ivec2) :
  In p block4x4 -> (0 <= ix p < 4)%Z /\ (0 <= iy p < 4)%Z.
Proof.
  intros H. vm_compute in H.
  repeat (destruct H as [H | H]; [subst p; simpl; lia|]). contradiction.
Qed.

(** X2. One fresh pixel per block and frame: in upscaling mode, for every
    frame index and every 4x4 block of the output (both non-negative), the
    sixteen pixels of the block read the same texel of the quarter-size
    buffers and exactly one of them is current. *)
Theorem one_current_pixel_per_block (bx bz f : Z) :
  (0 <= bx)%Z -> (0 <= bz)%Z -> (0 <= f)%Z ->
  countIf (fun c => isCurrent c f) (blockAt bx bz) = 1%nat /\
  forall c, In c (blockAt bx bz) ->
            mkIvec2 (Z.quot (ix c) 4) (Z.quot (iy c) 4) = mkIvec2 bx bz.
Proof.
  intros Hx Hy Hf. split.
  - unfold blockAt. rewrite ResolveSpec.countIf_map.
    rewrite (ResolveSpec.countIf_ext_in _ (fun p => isCurrent p f)).
    + assert (Hc := rem_nonneg_range f 16 Hf ltac:(lia)).
      unfold isCurrent. remember (Z.rem f 16) as c eqn:Ec. clear Ec Hf.
      ResolveSpec.split_range Hc; vm_compute; reflexivity.
    + intros p Hp. apply block4x4_range in Hp. destruct Hp as [Hpx Hpy].
      unfold isCurrent, bayerValue. cbn [ix iy].
      rewrite (rem4_offset bx (ix p)), (rem4_offset bz (iy p)) by assumption.
      rewrite (Z.rem_small (ix p) 4), (Z.rem_small (iy p) 4) by lia. reflexivity.
  - intros c Hc. unfold blockAt in Hc. apply in_map_iff in Hc.
    destruct Hc as [p [<- Hp]]. apply block4x4_range in Hp. destruct Hp as [Hpx Hpy].
    cbn [ix iy]. now rewrite !quot4_offset.
Qed.

Lemma one_current_pixel_per_block_witness :
  countIf (fun c => isCurrent c 21) (blockAt 3 7) = 1%nat /\
  forall c, In c (blockAt 3 7) ->
            mkIvec2 (Z.quot (ix c) 4) (Z.quot (iy c) 4) = mkIvec2 3 7.
Proof. apply (one_current_pixel_per_block 3 7 21); lia. Defined.

(** The shadow length a resolve function writes is there exactly when
    SHADOW_LENGTH is defined. *)
Lemma upscale_shadow_length_defined
    (d : Defines) (u : Uniforms) (vUv : vec2) (coord subCoord : ivec2) (cf : bool) :
  exists sl, outputShadowLength (temporalUpscale d u vUv coord subCoord cf)
             = whenDefined (SHADOW_LENGTH d) sl.
Proof.
  unfold temporalUpscale. destruct cf; [eexists; reflexivity|].
  destruct (rejected _); eexists; reflexivity.
Qed.

Lemma antialias_shadow_length_defined
    (d : Defines) (u : Uniforms) (vUv : vec2) (coord : ivec2) :
  exists sl, outputShadowLength (temporalAntialias d u vUv coord)
             = whenDefined (SHADOW_LENGTH d) sl.
Proof.
  unfold temporalAntialias. destruct (rejected _); eexists; reflexivity.
Qed.

Lemma resolved_shadow_length_defined
    (d : Defines) (u : Uniforms) (vUv : vec2) (coord : ivec2) :
  exists sl, outputShadowLength (resolved d u vUv coord) = whenDefined (SHADOW_LENGTH d) sl.
Proof.
  unfold resolved. destruct (TEMPORAL_UPSCALING d).
  - apply upscale_shadow_length_defined.
  - apply antialias_shadow_length_defined.
Qed.

Lemma resolved_withDebug (d : Defines) (b : bool) (u : Uniforms) (vUv : vec2) (coord : ivec2) :
  resolved (withDebug d b) u vUv coord = resolved d u vUv coord.
Proof. reflexivity. Qed.

Lemma main_resolved (d : Defines) (u : Uniforms) (vUv : vec2) (coord : ivec2) :
  main d u vUv coord =
  if SHADOW_LENGTH d && DEBUG_SHOW_SHADOW_LENGTH d then
    match outputShadowLength (resolved d u vUv coord) with
    | Some sl => mkOutputs (mkVec4 (sl * 0.05) (sl * 0.05) (sl * 0.05) 1.0) (Some sl)
    | None => resolved d u vUv coord
    end
  else resolved d u vUv coord.
Proof. reflexivity. Qed.

(** X3. The optional shadow-length channel: [main] writes
    [outputShadowLength] exactly when SHADOW_LENGTH is defined, in both
    modes and on every path, and the value written does not depend on
    DEBUG_SHOW_SHADOW_LENGTH. *)
Theorem shadow_length_written_iff_defined
    (d : Defines) (u : Uniforms) (vUv : vec2) (coord : ivec2) (b : bool) :
  (outputShadowLength (main d u vUv coord) <> None <-> SHADOW_LENGTH d = true) /\
  outputShadowLength (main (withDebug d b) u vUv coord)
  = outputShadowLength (main d u vUv coord).
Proof.
  assert (Hmain : forall d', outputShadowLength (main d' u vUv coord)
                             = outputShadowLength (resolved d' u vUv coord)).
  { intros d'. rewrite main_resolved.
    destruct (SHADOW_LENGTH d' && DEBUG_SHOW_SHADOW_LENGTH d'); [|reflexivity].
    destruct (outputShadowLength (resolved d' u vUv coord)) eqn:E; [reflexivity | exact E]. }
  split.
  - rewrite Hmain.
    destruct (resolved_shadow_length_defined d u vUv coord) as [sl ->].
    destruct (SHADOW_LENGTH d); simpl; split; congruence.
  - rewrite !Hmain. now rewrite resolved_withDebug.
Qed.

(** X4. The shadow-length debug view: without SHADOW_LENGTH the define
    DEBUG_SHOW_SHADOW_LENGTH changes nothing; with it the colour written is
    the opaque grey 0.05 times the resolved shadow length, in place of the
    resolved colour. *)
Theorem shadow_length_debug_view
    (d : Defines) (u : Uniforms) (vUv : vec2) (coord : ivec2) :
  (SHADOW_LENGTH d = false ->
   main (withDebug d true) u vUv coord = main (withDebug d false) u vUv coord) /\
  (SHADOW_LENGTH d = true ->
   exists sl,
     outputShadowLength (main (withDebug d false) u vUv coord) = Some sl /\
     outputColor (main (withDebug d true) u vUv coord)
     = mkVec4 (sl * 0.05) (sl * 0.05) (sl * 0.05) 1.0).
Proof.
  split; intros H.
  - rewrite !main_resolved, !resolved_withDebug.
    cbn [SHADOW_LENGTH DEBUG_SHOW_SHADOW_LENGTH withDebug]. rewrite H. reflexivity.
  - destruct (resolved_shadow_length_defined d u vUv coord) as [sl Hsl].
    rewrite H in Hsl. simpl in Hsl. exists sl.
    rewrite !main_resolved, !resolved_withDebug.
    cbn [SHADOW_LENGTH DEBUG_SHOW_SHADOW_LENGTH withDebug].
    rewrite H. simpl. rewrite !Hsl. split; reflexivity.
Qed.

Lemma shadow_length_debug_view_witness :
  let d := mkDefines true false false in
  exists sl,
    outputShadowLength (main (withDebug d false) shadowUniforms
                             (mkVec2 (1 # 2) (1 # 2)) (mkIvec2 3 2)) = Some sl /\
    outputColor (main (withDebug d true) shadowUniforms
                      (mkVec2 (1 # 2) (1 # 2)) (mkIvec2 3 2))
    = mkVec4 (sl * 0.05) (sl * 0.05) (sl * 0.05) 1.0.
Proof.
  apply (proj2 (shadow_length_debug_view (mkDefines true false false) shadowUniforms
                  (mkVec2 (1 # 2) (1 # 2)) (mkIvec2 3 2))).
  reflexivity.
Defined.

Lemma mix_one (p q a : Q) : a == 1 -> mix p q a == q.
Proof. intros H. unfold mix. rewrite H. ring. Qed.

Lemma mix_zero (p q a : Q) : a == 0 -> mix p q a == p.
Proof. intros H. unfold mix. rewrite H. ring. Qed.

Lemma mix_between (p q a : Q) :
  0 <= a <= 1 -> min p q <= mix p q a <= max p q.
Proof.
  intros Ha. unfold mix.
  destruct (min_spec p q) as [[H1 ->] | [H1 ->]];
  destruct (max_spec p q) as [[H2 ->] | [H2 ->]]; nra.
Qed.

Lemma chan_mix4 (c : channel) (x y : vec4) (a : Q) :
  chan c (mix4 x y a) = mix (chan c x) (chan c y) a.
Proof. destruct c; reflexivity. Qed.

(** X5. The blend weight at its ends: with [temporalAlpha] equal to 1 the
    antialias output is, channel by channel, the current sample, whether or
    not the history is rejected; with [temporalAlpha] equal to 0 and the
    history accepted it is the clipped history. *)
Theorem antialias_alpha_endpoints
    (d : Defines) (u : Uniforms) (vUv : vec2) (coord : ivec2) (c : channel) :
  let current := texelFetch (colorBuffer u) coord in
  let prevUv := reproject u vUv (getClosestFragment u coord) in
  let clipped := varianceClipping1 (colorBuffer u) coord current
                                   (texture (colorHistoryBuffer u) prevUv) in
  (temporalAlpha u == 1 ->
   chan c (outputColor (temporalAntialias d u vUv coord)) == chan c current) /\
  (temporalAlpha u == 0 -> rejected prevUv = false ->
   chan c (outputColor (temporalAntialias d u vUv coord)) == chan c clipped).
Proof.
  intros current prevUv clipped. split.
  - intros Ha. destruct (rejected prevUv) eqn:E.
    + rewrite (ResolveSpec.antialias_rejected d u vUv coord E). reflexivity.
    + rewrite (ResolveSpec.antialias_accepted d u vUv coord E).
      rewrite chan_mix4. now apply mix_one.
  - intros Ha E. rewrite (ResolveSpec.antialias_accepted d u vUv coord E).
    rewrite chan_mix4. now apply mix_zero.
Qed.

Lemma antialias_alpha_endpoints_witness :
  let u := withAlpha edgeUniforms 1 in
  chan G (outputColor (temporalAntialias noDefines u (mkVec2 (1 # 8) (3 # 4)) (mkIvec2 1 1)))
  == chan G (texelFetch (colorBuffer u) (mkIvec2 1 1)).
Proof.
  apply (proj1 (antialias_alpha_endpoints noDefines (withAlpha edgeUniforms 1)
                  (mkVec2 (1 # 8) (3 # 4)) (mkIvec2 1 1) G)).
  reflexivity.
Defined.

(** X6. The blend stays between its two inputs: for a [temporalAlpha] in
    [0,1], every channel of the antialias output lies between that channel
    of the current sample and of the clipped history (and is the current
    sample when the history is rejected). *)
Theorem antialias_between_history_and_current
    (d : Defines) (u : Uniforms) (vUv : vec2) (coord : ivec2) (c : channel) :
  0 <= temporalAlpha u <= 1 ->
  let current := texelFetch (colorBuffer u) coord in
  let prevUv := reproject u vUv (getClosestFragment u coord) in
  let clipped := varianceClipping1 (colorBuffer u) coord current
                                   (texture (colorHistoryBuffer u) prevUv) in
  let out := outputColor (temporalAntialias d u vUv coord) in
  min (chan c clipped) (chan c current) <= chan c out
  <= max (chan c clipped) (chan c current).
Proof.
  intros Ha current prevUv clipped out. unfold out.
  destruct (rejected prevUv) eqn:E.
  - rewrite (ResolveSpec.antialias_rejected d u vUv coord E). fold current.
    destruct (min_spec (chan c clipped) (chan c current)) as [[H1 ->] | [H1 ->]];
    destruct (max_spec (chan c clipped) (chan c current)) as [[H2 ->] | [H2 ->]]; lra.
  - rewrite (ResolveSpec.antialias_accepted d u vUv coord E).
    rewrite chan_mix4. now apply mix_between.
Qed.

Lemma antialias_between_history_and_current_witness :
  let u := edgeUniforms in
  let coord := mkIvec2 1 1 in
  let vUv := mkVec2 (1 # 8) (3 # 4) in
  let current := texelFetch (colorBuffer u) coord in
  let prevUv := reproject u vUv (getClosestFragment u coord) in
  let clipped := varianceClipping1 (colorBuffer u) coord current
                                   (texture (colorHistoryBuffer u) prevUv) in
  let out := outputColor (temporalAntialias noDefines u vUv coord) in
  min (chan R clipped) (chan R current) <= chan R out
  <= max (chan R clipped) (chan R current).
Proof.
  apply (antialias_between_history_and_current noDefines edgeUniforms
           (mkVec2 (1 # 8) (3 # 4)) (mkIvec2 1 1) R).
  simpl. lra.
Defined.

Lemma rem16_period (f k : Z) :
  (0 <= f)%Z -> (0 <= k)%Z -> Z.rem (f + 16 * k) 16 = Z.rem f 16.
Proof.
  intros Hf Hk. rewrite !Z.rem_mod_nonneg by lia.
  rewrite (Z.mul_comm 16 k). apply Z_mod_plus_full.
Qed.

(** X7. The frame index counts modulo 16 only: for non-negative frame
    indices, [main] gives the same outputs at frame f and at frame
    f + 16 k; without TEMPORAL_UPSCALING it does not read the frame index
    at all. *)
Theorem main_frame_period
    (d : Defines) (u : Uniforms) (vUv : vec2) (coord : ivec2) (f f' k : Z) :
  ((0 <= f)%Z -> (0 <= k)%Z ->
   main d (withFrame u (f + 16 * k)) vUv coord = main d (withFrame u f) vUv coord) /\
  (TEMPORAL_UPSCALING d = false ->
   main d (withFrame u f') vUv coord = main d (withFrame u f) vUv coord).
Proof.
  split.
  - intros Hf Hk. unfold main.
    cbn [frame withFrame]. unfold isCurrent. rewrite rem16_period by assumption.
    reflexivity.
  - intros Hu. unfold main. rewrite Hu. reflexivity.
Qed.

Lemma main_frame_period_witness :
  main (mkDefines false true false) (withFrame edgeUniforms (5 + 16 * 3))
       (mkVec2 (1 # 8) (3 # 4)) (mkIvec2 6 1)
  = main (mkDefines false true false) (withFrame edgeUniforms 5)
         (mkVec2 (1 # 8) (3 # 4)) (mkIvec2 6 1).
Proof.
  apply (proj1 (main_frame_period (mkDefines false true false) edgeUniforms
                  (mkVec2 (1 # 8) (3 # 4)) (mkIvec2 6 1) 5 0 3)); lia.
Defined.

End ResolveMore.

(** ** Of the aerial perspective effect *)

Module AerialMore.
Import Glsl GlslFacts AerialPerspective AerialCases AerialMoreCases.

(** X8. The effect with every shading and scattering toggle off: when
    none of SUN_IRRADIANCE, SKY_IRRADIANCE, TRANSMITTANCE and INSCATTER is
    defined, [mainImage] returns the input colour unchanged at every depth,
    whatever the normal and horizon-correction defines are. *)
Theorem all_toggles_off_is_identity
    (inc : Includes) (d : Defines) (u : Uniforms) (inputColor : vec4) (uv : vec2) :
  SUN_IRRADIANCE d = false -> SKY_IRRADIANCE d = false ->
  TRANSMITTANCE d = false -> INSCATTER d = false ->
  mainImage inc d u inputColor uv = inputColor.
Proof.
  intros Hsun Hsky Ht Hi. unfold mainImage.
  destruct (Qgeb (readDepth inc uv) (1.0 - 1e-7)); [reflexivity|].
  rewrite Hsun, Hsky, Ht, Hi. cbn [orb].
  destruct (if CORRECT_GEOMETRIC_ERROR d then _ else _) as [wp wn].
  destruct inputColor. reflexivity.
Qed.

Lemma all_toggles_off_is_identity_witness :
  mainImage (flatIncludes (1 # 2)) (mkDefines true false true false false false false)
            (flatUniforms 5000) (mkVec4 (1 # 4) (1 # 2) (3 # 4) (1 # 3))
            (mkVec2 (1 # 2) (1 # 2))
  = mkVec4 (1 # 4) (1 # 2) (3 # 4) (1 # 3).
Proof.
  apply (all_toggles_off_is_identity (flatIncludes (1 # 2))
           (mkDefines true false true false false false false) (flatUniforms 5000)
           (mkVec4 (1 # 4) (1 # 2) (3 # 4) (1 # 3)) (mkVec2 (1 # 2) (1 # 2)));
    reflexivity.
Defined.

(** X9. Normals matter to the irradiance only: when neither SUN_IRRADIANCE
    nor SKY_IRRADIANCE is defined, the output of [mainImage] is the same
    whatever the normal buffer holds and whichever of OCT_ENCODED_NORMAL and
    RECONSTRUCT_NORMAL are defined; transmittance, inscatter and the
    corrected position do not use the normal. *)
Theorem normals_only_feed_irradiance
    (inc : Includes) (d : Defines) (u : Uniforms) (inputColor : vec4) (uv : vec2)
    (oct reconstruct : bool) (nb : sampler2D) :
  SUN_IRRADIANCE d = false -> SKY_IRRADIANCE d = false ->
  mainImage inc (withNormalDefines d oct reconstruct) (withNormalBuffer u nb) inputColor uv
  = mainImage inc d u inputColor uv.
Proof.
  intros Hsun Hsky. unfold mainImage.
  destruct (Qgeb (readDepth inc uv) (1.0 - 1e-7)); [reflexivity|].
  cbn [withNormalDefines withNormalBuffer OCT_ENCODED_NORMAL RECONSTRUCT_NORMAL
       CORRECT_GEOMETRIC_ERROR SUN_IRRADIANCE SKY_IRRADIANCE TRANSMITTANCE INSCATTER
       projectionMatrix inverseProjectionMatrix inverseViewMatrix cameraNear cameraFar
       geometricErrorAltitudeRange].
  rewrite Hsun, Hsky. cbn [orb].
  destruct (CORRECT_GEOMETRIC_ERROR d); unfold correctGeometricError;
    cbn [withNormalBuffer vEllipsoidRadiiSquared cameraHeight];
    destruct (TRANSMITTANCE d || INSCATTER d); try reflexivity;
    unfold getTransmittanceInscatter;
    cbn [withNormalDefines withNormalBuffer TRANSMITTANCE INSCATTER
         vWorldPosition vEllipsoidCenter sunDirection];
    destruct (GetSkyRadianceToPoint inc _ _ _ _); reflexivity.
Qed.

Lemma normals_only_feed_irradiance_witness :
  mainImage (flatIncludes (1 # 2))
            (withNormalDefines (mkDefines false false true false false true true) true true)
            (withNormalBuffer (flatUniforms 5000) ResolveCases.dotBuffer)
            (mkVec4 (1 # 4) (1 # 2) (3 # 4) (1 # 3)) (mkVec2 (1 # 2) (1 # 2))
  = mainImage (flatIncludes (1 # 2)) (mkDefines false false true false false true true)
              (flatUniforms 5000)
              (mkVec4 (1 # 4) (1 # 2) (3 # 4) (1 # 3)) (mkVec2 (1 # 2) (1 # 2)).
Proof.
  apply (normals_only_feed_irradiance (flatIncludes (1 # 2))
           (mkDefines false false true false false true true) (flatUniforms 5000)
           (mkVec4 (1 # 4) (1 # 2) (3 # 4) (1 # 3)) (mkVec2 (1 # 2) (1 # 2))
           true true ResolveCases.dotBuffer); reflexivity.
Defined.

(** X10. A clear atmosphere: when the atmosphere model answers with
    transmittance 1 and no inscatter on the path from the camera to the
    surface, [getTransmittanceInscatter] leaves the radiance as it is,
    whichever of TRANSMITTANCE and INSCATTER are defined. *)
Theorem clear_atmosphere_keeps_radiance
    (inc : Includes) (d : Defines) (u : Uniforms)
    (worldPosition worldNormal radiance inscatter transmittance : vec3) :
  GetSkyRadianceToPoint inc (zip3 Qminus (vWorldPosition u) (vEllipsoidCenter u))
                        (zip3 Qminus worldPosition (vEllipsoidCenter u))
                        0.0 (sunDirection u) = (inscatter, transmittance) ->
  eq3 transmittance (mkVec3 1 1 1) -> eq3 inscatter (mkVec3 0 0 0) ->
  eq3 (getTransmittanceInscatter inc d u worldPosition worldNormal radiance) radiance.
Proof.
  intros E [Tx [Ty Tz]] [Ix [Iy Iz]]. unfold getTransmittanceInscatter. rewrite E.
  simpl in Tx, Ty, Tz, Ix, Iy, Iz.
  destruct (TRANSMITTANCE d), (INSCATTER d); unfold eq3; simpl;
    rewrite ?Tx, ?Ty, ?Tz, ?Ix, ?Iy, ?Iz; repeat split; ring.
Qed.

Lemma clear_atmosphere_keeps_radiance_witness :
  eq3 (getTransmittanceInscatter (clearIncludes (1 # 2)) allDefines (flatUniforms 5000)
         (mkVec3 1 2 3) (mkVec3 0 0 1) (mkVec3 (1 # 4) (1 # 2) (3 # 4)))
      (mkVec3 (1 # 4) (1 # 2) (3 # 4)).
Proof.
  apply (clear_atmosphere_keeps_radiance (clearIncludes (1 # 2)) allDefines
           (flatUniforms 5000) (mkVec3 1 2 3) (mkVec3 0 0 1)
           (mkVec3 (1 # 4) (1 # 2) (3 # 4)) (mkVec3 0 0 0) (mkVec3 1 1 1)).
  - reflexivity.
  - repeat split; reflexivity.
  - repeat split; reflexivity.
Defined.

(** X11. Sun and sky irradiance add up: the radiance [getSunSkyIrradiance]
    returns with both SUN_IRRADIANCE and SKY_IRRADIANCE defined is the sum
    of what it returns with only the one and with only the other. *)
Theorem sun_and_sky_irradiance_add
    (inc : Includes) (d : Defines) (u : Uniforms)
    (worldPosition worldNormal inputColor : vec3) :
  eq3 (getSunSkyIrradiance inc (withIrradiance d true true) u
         worldPosition worldNormal inputColor)
      (zip3 Qplus
         (getSunSkyIrradiance inc (withIrradiance d true false) u
            worldPosition worldNormal inputColor)
         (getSunSkyIrradiance inc (withIrradiance d false true) u
            worldPosition worldNormal inputColor)).
Proof.
  unfold getSunSkyIrradiance.
  destruct (GetSunAndSkyIrradiance inc _ _ _) as [sunI skyI].
  unfold eq3. simpl. repeat split; ring.
Qed.

Lemma mix3_at_zero (a b : vec3) (t : Q) : t == 0 -> eq3 (mix3 a b t) a.
Proof. intros H. unfold eq3, mix3, mix. simpl. rewrite H. repeat split; ring. Qed.

Lemma mix3_at_one (a b : vec3) (t : Q) : t == 1 -> eq3 (mix3 a b t) b.
Proof. intros H. unfold eq3, mix3, mix. simpl. rewrite H. repeat split; ring. Qed.

(** X12. The horizon correction at the ends of the height range: for
    minHeight < maxHeight, a camera at or below minHeight leaves position
    and normal as reconstructed, and a camera at or above maxHeight replaces
    them by the ellipsoid normal and by that normal scaled to the bottom
    radius. *)
Theorem horizon_correction_at_the_ends
    (inc : Includes) (u : Uniforms) (minHeight maxHeight : Q)
    (worldPosition worldNormal : vec3) :
  minHeight < maxHeight ->
  let normal :=
    normalize inc (zip3 Qmult (map3 (fun r => 1.0 / r) (vEllipsoidRadiiSquared u))
                              worldPosition) in
  let out := correctGeometricError inc u minHeight maxHeight worldPosition worldNormal in
  (cameraHeight u <= minHeight ->
   eq3 (fst out) worldPosition /\ eq3 (snd out) worldNormal) /\
  (maxHeight <= cameraHeight u ->
   eq3 (fst out) (map3 (Qmult (u_bottom_radius inc)) normal) /\ eq3 (snd out) normal).
Proof.
  intros He normal out. split; intros Hh.
  - pose proof (AerialSpec.smoothstep_low minHeight maxHeight (cameraHeight u) He Hh) as Ht.
    split; apply mix3_at_zero; exact Ht.
  - pose proof (AerialSpec.smoothstep_high minHeight maxHeight (cameraHeight u) He Hh) as Ht.
    split; apply mix3_at_one; exact Ht.
Qed.

Lemma horizon_correction_at_the_ends_witness :
  let inc := flatIncludes (1 # 2) in
  let u := flatUniforms 1500 in
  let out := correctGeometricError inc u 2000 100000 (mkVec3 8 0 4) (mkVec3 0 0 1) in
  eq3 (fst out) (mkVec3 8 0 4) /\ eq3 (snd out) (mkVec3 0 0 1).
Proof.
  apply (proj1 (horizon_correction_at_the_ends (flatIncludes (1 # 2)) (flatUniforms 1500)
                  2000 100000 (mkVec3 8 0 4) (mkVec3 0 0 1) ltac:(reflexivity))).
  simpl. lra.
Defined.



End AerialMore.

(** ** Of the two materials *)

Module MaterialMore.
Import stdpp.base stdpp.gmap stdpp.strings.
Import Glsl GlslFacts ResolveMaterial MaterialCases MoreCases.
Local Open Scope string_scope.
Local Open Scope Q_scope.

Lemma half_pixel (p v size : Q) :
  0 < size -> (p + 1 / 2) / size - v * (1 / size) == (p - v + 1 / 2) / size.
Proof. intros H. field. lra. Qed.

Lemma ratio_negative (a size : Q) : 0 < size -> (a / size < 0 <-> a < 0).
Proof.
  intros H. split; intros Ha.
  - destruct (Qlt_le_dec a 0) as [|Hge]; [assumption|].
    assert (0 <= a / size) by (apply Qle_shift_div_l; lra). lra.
  - apply Qlt_shift_div_r; lra.
Qed.

Lemma ratio_above_one (a size : Q) : 0 < size -> (1 < a / size <-> size < a).
Proof.
  intros H. split; intros Ha.
  - destruct (Qlt_le_dec size a) as [|Hge]; [assumption|].
    assert (a / size <= 1) by (apply Qle_shift_div_r; lra). lra.
  - apply Qlt_shift_div_l; lra.
Qed.

(** X14. Reprojection in pixels: with the texel size [setSize] stores for
    a width and height that are positive, a destination UV at the centre of
    pixel (px, py) and a closest fragment of velocity (vx, vy) texels
    reproject to the centre of pixel (px - vx, py - vy), and the history is
    rejected exactly when that centre lies off the width x height screen. *)
Theorem reprojection_in_pixels
    (m : CloudsResolveMaterialUniforms) (u : CloudsResolve.Uniforms)
    (width height px py : Q) (depthVelocity : vec4) :
  0 < width -> 0 < height ->
  let u := withTexelSize u (texelSize (setSize width height m)) in
  let vUv := mkVec2 ((px + 1 / 2) / width) ((py + 1 / 2) / height) in
  let prevUv := CloudsResolve.reproject u vUv depthVelocity in
  let sx := px - cg depthVelocity + 1 / 2 in
  let sy := py - cb depthVelocity + 1 / 2 in
  Glsl.vx prevUv == sx / width /\ Glsl.vy prevUv == sy / height /\
  (CloudsResolve.rejected prevUv = true <->
   sx < 0 \/ width < sx \/ sy < 0 \/ height < sy).
Proof.
  intros Hw Hh u' vUv prevUv sx sy.
  assert (Ex : Glsl.vx prevUv == sx / width).
  { unfold prevUv, sx. simpl. now apply half_pixel. }
  assert (Ey : Glsl.vy prevUv == sy / height).
  { unfold prevUv, sy. simpl. now apply half_pixel. }
  split; [exact Ex | split; [exact Ey|]].
  rewrite ResolveSpec.rejected_true, Ex, Ey.
  rewrite (ratio_negative sx width Hw), (ratio_above_one sx width Hw).
  rewrite (ratio_negative sy height Hh), (ratio_above_one sy height Hh).
  reflexivity.
Qed.

Lemma reprojection_in_pixels_witness :
  let u := withTexelSize ResolveCases.edgeUniforms
             (texelSize (setSize 8 4 (construct (mkParameters None None None)))) in
  let prevUv := CloudsResolve.reproject u (mkVec2 ((1 + 1 / 2) / 8) ((3 + 1 / 2) / 4))
                                        (mkVec4 0 2 1 0) in
  Glsl.vx prevUv == (1 - 2 + 1 / 2) / 8 /\ Glsl.vy prevUv == (3 - 1 + 1 / 2) / 4 /\
  (CloudsResolve.rejected prevUv = true <->
   1 - 2 + 1 / 2 < 0 \/ 8 < 1 - 2 + 1 / 2 \/ 3 - 1 + 1 / 2 < 0 \/ 4 < 3 - 1 + 1 / 2).
Proof.
  apply (reprojection_in_pixels (construct (mkParameters None None None))
           ResolveCases.edgeUniforms 8 4 1 3 (mkVec4 0 2 1 0)); reflexivity.
Defined.

Lemma mulMat4_multiply (a b : mat4) (v : vec4) :
  eq4 (mulMat4 (multiply a b) v) (mulMat4 a (mulMat4 b v)).
Proof.
  destruct a as [[] [] [] []], b as [[] [] [] []], v.
  unfold eq4. simpl. repeat split; ring.
Qed.

(** X15. The reprojection matrix: after [setReprojectionMatrix] the
    uniform maps a point as the camera's inverse world matrix followed by
    its projection matrix does (world space to view space to clip space),
    and no other uniform changes. *)
Theorem reprojection_matrix_is_projection_after_view
    (camera : Camera) (m : CloudsResolveMaterialUniforms) (v : vec4) :
  let m' := setReprojectionMatrix camera m in
  eq4 (mulMat4 (reprojectionMatrix m') v)
      (mulMat4 (camProjectionMatrix camera) (mulMat4 (camMatrixWorldInverse camera) v)) /\
  inputBuffer m' = inputBuffer m /\ depthVelocityBuffer m' = depthVelocityBuffer m /\
  historyBuffer m' = historyBuffer m /\
  inverseProjectionMatrix m' = inverseProjectionMatrix m /\
  inverseViewMatrix m' = inverseViewMatrix m /\
  texelSize m' = texelSize m /\ cameraPosition m' = cameraPosition m.
Proof.
  intros m'. split; [apply mulMat4_multiply|]. repeat split.
Qed.

End MaterialMore.

(** ** Of the atmosphere material *)

Module AtmosphereMore.
Import stdpp.base stdpp.gmap stdpp.strings.
Import Glsl ResolveMaterial AtmosphereMaterial MaterialCases.
Local Open Scope string_scope.
Local Open Scope Q_scope.

Section Calls.

Variable cos : Q -> Q.
Variable METER_TO_UNIT_LENGTH : string.

(** What holds of the constructed material and is kept by every call holds
    after any series of calls. *)
Lemma run_invariant (P : Material -> Prop) (p : AtmosphereMaterialParameters)
    (calls : list Call) :
  P (construct cos METER_TO_UNIT_LENGTH p) ->
  (forall m c, P m -> P (call cos m c)) ->
  P (run cos METER_TO_UNIT_LENGTH p calls).
Proof.
  unfold run. generalize (construct cos METER_TO_UNIT_LENGTH p).
  induction calls as [|c calls IH]; intros m Hm Hstep; simpl.
  - exact Hm.
  - apply IH; [apply Hstep; exact Hm | exact Hstep].
Qed.

Lemma set_sun_unfold (value : bool) (m : Material) :
  set_sun value m = m \/
  set_sun value m = set_defines (<["SUN" := "1"]> (defines m)) true m \/
  set_sun value m = set_defines (delete "SUN" (defines m)) true m.
Proof.
  unfold set_sun. destruct (Bool.eqb value (sun m)); [now left|].
  destruct value; auto.
Qed.

(** X16. The two scattering uniforms go together: after construction and
    any series of setter and [onBeforeRender] calls, [scattering_texture]
    and [single_mie_scattering_texture] hold the same texture. *)
Theorem scattering_uniforms_agree (p : AtmosphereMaterialParameters) (calls : list Call) :
  let m := run cos METER_TO_UNIT_LENGTH p calls in
  scattering_texture m = single_mie_scattering_texture m.
Proof.
  apply (run_invariant (fun m => scattering_texture m = single_mie_scattering_texture m)).
  - reflexivity.
  - intros m c H. destruct c; simpl; try exact H; try reflexivity.
    destruct (set_sun_unfold value m) as [-> | [-> | ->]]; exact H.
Qed.

(** X17. The cosine kept beside the radius: after construction and any
    series of calls, the y component of [sunParams] is the cosine of its x
    component, the sun radius; setting the intensity, which shares the
    vector, does not break it. *)
Theorem sun_params_cosine (p : AtmosphereMaterialParameters) (calls : list Call) :
  let m := run cos METER_TO_UNIT_LENGTH p calls in
  y3 (sunParams m) = cos (x3 (sunParams m)).
Proof.
  apply (run_invariant (fun m => y3 (sunParams m) = cos (x3 (sunParams m)))).
  - reflexivity.
  - intros m c H. destruct c; simpl; try exact H; try reflexivity.
    destruct (set_sun_unfold value m) as [-> | [-> | ->]]; exact H.
Qed.

Lemma sun_set_sun (value : bool) (m : Material) : sun (set_sun value m) = value.
Proof.
  unfold set_sun. destruct (Bool.eqb value (sun m)) eqn:E.
  - apply Bool.eqb_prop in E. now symmetry.
  - destruct value; unfold sun; simpl.
    + now rewrite lookup_insert_eq.
    + now rewrite lookup_delete_eq.
Qed.

Lemma sun_call (m : Material) (c : Call) :
  sun (call cos m c) = match c with SetSun v => v | _ => sun m end.
Proof. destruct c; try reflexivity. apply sun_set_sun. Qed.

(** X18. The [sun] switch: the getter returns what the setter was given;
    setting the value the getter already returns leaves the material as it
    is, [needsUpdate] included; setting the other value raises
    [needsUpdate] and changes no define but SUN. *)
Theorem sun_setter (value : bool) (m : Material) (key : string) :
  sun (set_sun value m) = value /\
  (value = sun m -> set_sun value m = m) /\
  (value <> sun m -> needsUpdate (set_sun value m) = true) /\
  (key <> "SUN" -> defines (set_sun value m) !! key = defines m !! key).
Proof.
  split; [apply sun_set_sun|]. unfold set_sun.
  split; [|split].
  - intros ->. now rewrite Bool.eqb_reflx.
  - intros Hne. destruct (Bool.eqb value (sun m)) eqn:E.
    + apply Bool.eqb_prop in E. contradiction.
    + destruct value; reflexivity.
  - intros Hkey. destruct (Bool.eqb value (sun m)); [reflexivity|].
    destruct value; simpl.
    + now rewrite lookup_insert_ne.
    + now rewrite lookup_delete_ne.
Qed.

(** X19. The [sun] parameter of the constructor is not used: a new
    material has [sun] on whatever the parameter says, and after any series
    of calls [sun] is what the last [set sun] was given (still on if there
    was none). *)
Theorem sun_after_calls (p : AtmosphereMaterialParameters) (calls : list Call) :
  sun (construct cos METER_TO_UNIT_LENGTH p) = true /\
  sun (run cos METER_TO_UNIT_LENGTH p calls) = lastSun calls true.
Proof.
  assert (H0 : sun (construct cos METER_TO_UNIT_LENGTH p) = true) by reflexivity.
  split; [exact H0|]. unfold run. rewrite <- H0.
  generalize (construct cos METER_TO_UNIT_LENGTH p).
  induction calls as [|c calls IH]; intros m; simpl; [reflexivity|].
  rewrite IH, sun_call. destruct c; reflexivity.
Qed.

Lemma sunParams_call (m : Material) (c : Call) :
  sunRadius (call cos m c) = match c with SetSunRadius v => v | _ => sunRadius m end /\
  sunIntensity (call cos m c)
  = match c with SetSunIntensity v => v | _ => sunIntensity m end.
Proof.
  destruct c; try (split; reflexivity).
  destruct (set_sun_unfold value m) as [E | [E | E]];
    simpl; rewrite E; split; reflexivity.
Qed.

Lemma scattering_call (m : Material) (c : Call) :
  scatteringTexture (call cos m c)
  = match c with SetScatteringTexture v => v | _ => scatteringTexture m end.
Proof.
  destruct c; try reflexivity.
  destruct (set_sun_unfold value m) as [E | [E | E]]; simpl; rewrite E; reflexivity.
Qed.

(** X20. The last value set is the value read: after any series of calls
    the getters [sunRadius], [sunIntensity] and [scatteringTexture] return
    what their own setter was last given, or what the constructor stored
    (radius 0.00465 and intensity 1 when left out) if it was never called;
    no other call changes them, although radius and intensity share one
    vector. *)
Theorem getters_read_last_set (p : AtmosphereMaterialParameters) (calls : list Call) :
  let m := run cos METER_TO_UNIT_LENGTH p calls in
  sunRadius m
  = lastSunRadius calls (match paramSunRadius p with Some r => r | None => 0.00465 end) /\
  sunIntensity m
  = lastSunIntensity calls (match paramSunIntensity p with Some i => i | None => 1 end) /\
  scatteringTexture m = lastScatteringTexture calls (paramScatteringTexture p).
Proof.
  cbv zeta. unfold run.
  change (match paramSunRadius p with Some r => r | None => 0.00465 end)
    with (sunRadius (construct cos METER_TO_UNIT_LENGTH p)).
  change (match paramSunIntensity p with Some i => i | None => 1 end)
    with (sunIntensity (construct cos METER_TO_UNIT_LENGTH p)).
  change (paramScatteringTexture p)
    with (scatteringTexture (construct cos METER_TO_UNIT_LENGTH p)).
  generalize (construct cos METER_TO_UNIT_LENGTH p).
  induction calls as [|c calls IH]; intros m; simpl; [repeat split|].
  destruct (IH (call cos m c)) as (Hr & Hi & Hs).
  destruct (sunParams_call m c) as [Er Ei]. pose proof (scattering_call m c) as Es.
  rewrite Hr, Hi, Hs, Er, Ei, Es. destruct c; repeat split.
Qed.

Lemma defines_call_without_sun (m : Material) (c : Call) :
  match c with SetSun _ => False | _ => True end ->
  defines (call cos m c) = defines m /\ needsUpdate (call cos m c) = needsUpdate m.
Proof. destruct c; intros H; try contradiction; split; reflexivity. Qed.

Lemma calls_without_sun (calls : list Call) (m : Material) :
  setsSun calls = false ->
  defines (fold_left (call cos) calls m) = defines m /\
  needsUpdate (fold_left (call cos) calls m) = needsUpdate m.
Proof.
  revert m. induction calls as [|c calls IH]; intros m Hno; simpl; [split; reflexivity|].
  simpl in Hno. apply orb_false_iff in Hno. destruct Hno as [Hc Hrest].
  destruct (IH (call cos m c) Hrest) as [Hd Hn].
  destruct (defines_call_without_sun m c) as [Ed En].
  { destruct c; try exact I. discriminate Hc. }
  rewrite Hd, Hn, Ed, En. split; reflexivity.
Qed.

(** X21. Only [set sun] asks for a recompilation: a series of calls that
    never sets [sun] leaves the defines as the constructor made them (SUN
    and METER_TO_UNIT_LENGTH) and [needsUpdate] unraised. *)
Theorem only_sun_touches_defines (p : AtmosphereMaterialParameters) (calls : list Call) :
  setsSun calls = false ->
  let m := run cos METER_TO_UNIT_LENGTH p calls in
  defines m = <["METER_TO_UNIT_LENGTH" := METER_TO_UNIT_LENGTH]> (<["SUN" := "1"]> ∅) /\
  needsUpdate m = false.
Proof.
  intros Hno. cbv zeta. unfold run.
  destruct (calls_without_sun calls (construct cos METER_TO_UNIT_LENGTH p) Hno) as [Hd Hn].
  rewrite Hd, Hn. split; reflexivity.
Qed.

End Calls.

Lemma sun_setter_witness :
  let m := construct halfSquare "1000" noParameters in
  false <> sun m /\ needsUpdate (set_sun false m) = true.
Proof.
  cbv zeta. split; [discriminate|].
  apply (proj1 (proj2 (proj2 (sun_setter false
                                 (construct halfSquare "1000" noParameters) "SUN")))).
  discriminate.
Defined.

Lemma only_sun_touches_defines_witness :
  let calls := [SetSunRadius (1 # 100); SetScatteringTexture (Some 3%nat);
                OnBeforeRender someCamera identityMatrix identityMatrix;
                SetSunIntensity 2] in
  let m := run halfSquare "1000" noParameters calls in
  defines m = <["METER_TO_UNIT_LENGTH" := "1000"]> (<["SUN" := "1"]> ∅) /\
  needsUpdate m = false.
Proof.
  apply (only_sun_touches_defines halfSquare "1000" noParameters
           [SetSunRadius (1 # 100); SetScatteringTexture (Some 3%nat);
            OnBeforeRender someCamera identityMatrix identityMatrix;
            SetSunIntensity 2]).
  reflexivity.
Defined.

End AtmosphereMore.

(** ** Of the hook *)

Module HookMore.
Import stdpp.base stdpp.gmap stdpp.strings.
Import CloudsControls CloudsControlsFrame ControlsCases HookCases.
Local Open Scope string_scope.
Local Open Scope Q_scope.

Lemma setDefine_last_wins (f1 f2 : bool) (name : string) (m : gmap string string) :
  setDefine f2 name (setDefine f1 name m) = setDefine f2 name m.
Proof.
  apply map_eq. intros key. rewrite !ControlsSpec.lookup_setDefine.
  destruct (decide (name = key)); reflexivity.
Qed.

Lemma setDefine_swap (f1 f2 : bool) (n1 n2 : string) (m : gmap string string) :
  n1 <> n2 ->
  setDefine f1 n1 (setDefine f2 n2 m) = setDefine f2 n2 (setDefine f1 n1 m).
Proof.
  intros Hne. apply map_eq. intros key. rewrite !ControlsSpec.lookup_setDefine.
  destruct (decide (n1 = key)), (decide (n2 = key)); try reflexivity. congruence.
Qed.

Ltac same_defines :=
  apply map_eq; intros key; rewrite !ControlsSpec.lookup_setDefine;
  repeat (match goal with |- context [decide (?a = key)] =>
            destruct (decide (a = key)) end);
  try reflexivity; subst; congruence.

(** X22. No stale debug symbols: the debug effects run for one set of
    checkboxes and then for another leave the pass exactly as if they had
    run for the second only; in particular running them twice is running
    them once, and a view switched off takes its symbol away. *)
Theorem debug_effects_last_wins (c1 c2 : Controls) (pass : option CloudsPass) :
  ControlsCases.passOf c2 (ControlsCases.passOf c1 pass) = ControlsCases.passOf c2 pass.
Proof.
  unfold passOf, useCloudsControls. simpl.
  destruct pass as [p|]; [|reflexivity].
  unfold renderDebugEffect, resolveDebugEffect. cbn [currentMaterial resolveMaterial defines].
  f_equal. f_equal; f_equal; same_defines.
Qed.

(** X23. The debug effects keep to their own symbols: a define that is
    none of the five render-material symbols is left as it was on the render
    material, one that is neither of the two resolve-material symbols is
    left as it was on the resolve material, and both materials get
    [needsUpdate] raised whether or not anything changed. *)
Theorem debug_effects_frame (c : Controls) (p : CloudsPass) (key : string) :
  exists p', ControlsCases.passOf c (Some p) = Some p' /\
    (~ In key renderDebugNames ->
     defines (currentMaterial p') !! key = defines (currentMaterial p) !! key) /\
    (~ In key resolveDebugNames ->
     defines (resolveMaterial p') !! key = defines (resolveMaterial p) !! key) /\
    needsUpdate (currentMaterial p') = true /\
    needsUpdate (resolveMaterial p') = true.
Proof.
  eexists. split; [reflexivity|]. cbn [currentMaterial resolveMaterial defines needsUpdate].
  split; [|split; [|split; reflexivity]].
  - intros Hkey. rewrite !ControlsSpec.lookup_setDefine.
    repeat (match goal with |- context [decide (?a = key)] =>
              destruct (decide (a = key)) as [E|_];
              [exfalso; apply Hkey; rewrite <- E; simpl; tauto|] end).
    reflexivity.
  - intros Hkey. rewrite !ControlsSpec.lookup_setDefine.
    repeat (match goal with |- context [decide (?a = key)] =>
              destruct (decide (a = key)) as [E|_];
              [exfalso; apply Hkey; rewrite <- E; simpl; tauto|] end).
    reflexivity.
Qed.

Lemma debug_effects_frame_witness :
  exists p', ControlsCases.passOf twoDebugViews (Some freshPass) = Some p' /\
    defines (currentMaterial p') !! "USE_SHAPE_DETAIL"
    = defines (currentMaterial freshPass) !! "USE_SHAPE_DETAIL".
Proof.
  destruct (debug_effects_frame twoDebugViews freshPass "USE_SHAPE_DETAIL")
    as (p' & E & Hr & _).
  exists p'. split; [exact E|]. apply Hr.
  simpl. intros H. repeat (destruct H as [H | H]; [discriminate H|]). exact H.
Defined.

(** *** The uniforms written every frame *)

Lemma assign_app (a b : list (string * Q)) (m : gmap string Q) :
  assignUniforms (a ++ b) m =
  match assignUniforms a m with
  | Returned m1 => assignUniforms b m1
  | Threw m1 => Threw m1
  end.
Proof.
  revert m. induction a as [|[k v] a IH]; intros m; simpl; [reflexivity|].
  destruct (m !! k); [apply IH | reflexivity].
Qed.

Lemma is_Some_insert_present (m : gmap string Q) (k key : string) (v : Q) :
  is_Some (m !! k) -> (is_Some (<[k := v]> m !! key) <-> is_Some (m !! key)).
Proof.
  intros Hk. rewrite lookup_insert. destruct (decide (k = key)) as [<-|]; [|reflexivity].
  split; intros _; [exact Hk | eauto].
Qed.

(** The loop returns when the material has every uniform it names. *)
Lemma assign_returns (entries : list (string * Q)) (m : gmap string Q) :
  (forall k, In k (keysOf entries) -> is_Some (m !! k)) ->
  exists m', assignUniforms entries m = Returned m' /\
    (forall key, is_Some (m' !! key) <-> is_Some (m !! key)) /\
    (forall key, ~ In key (keysOf entries) -> m' !! key = m !! key) /\
    (List.NoDup (keysOf entries) ->
     forall k v, In (k, v) entries -> m' !! k = Some v).
Proof.
  revert m. induction entries as [|[k v] entries IH]; intros m Hall.
  - exists m. simpl. repeat split; auto. intros _ k v [].
  - simpl. destruct (Hall k (or_introl eq_refl)) as [old Hold]. rewrite Hold.
    destruct (IH (<[k := v]> m)) as (m' & Er & Hdom & Hother & Hread).
    { intros k' Hk'. apply is_Some_insert_present; [eauto|]. apply Hall. now right. }
    exists m'. split; [exact Er|]. split; [|split].
    + intros key. rewrite Hdom. apply is_Some_insert_present. eauto.
    + intros key Hkey. simpl in Hkey. rewrite Hother by tauto.
      apply lookup_insert_ne. tauto.
    + intros Hnd k' v' [E | Hin].
      * inversion E; subst k' v'. inversion Hnd as [|? ? Hnotin Hnd']; subst.
        rewrite Hother by exact Hnotin. apply lookup_insert_eq.
      * inversion Hnd as [|? ? Hnotin Hnd']; subst. now apply Hread.
Qed.

(** The loop throws at the first name the material lacks. *)
Lemma assign_throws (entries : list (string * Q)) (m : gmap string Q) :
  (exists k, In k (keysOf entries) /\ m !! k = None) ->
  exists m', assignUniforms entries m = Threw m'.
Proof.
  revert m. induction entries as [|[k v] entries IH]; intros m [k' [Hin Hnone]].
  - destruct Hin.
  - simpl. destruct (m !! k) eqn:Ek; [|eauto].
    apply IH. exists k'. simpl in Hin. destruct Hin as [<- | Hin]; [congruence|].
    split; [exact Hin|]. rewrite lookup_insert_ne; [exact Hnone | congruence].
Qed.

Lemma render_keys_distinct (sp : ScatteringParams) (cp : CloudsRaymarchParams) :
  List.NoDup (keysOf (scatteringEntries sp ++ cloudsRaymarchEntries cp)).
Proof.
  simpl. repeat (constructor; [simpl; intros H;
    repeat (destruct H as [H | H]; [discriminate H|]); exact H|]). constructor.
Qed.

Lemma shadow_keys_distinct (hp : ShadowRaymarchParams) :
  List.NoDup (keysOf (shadowRaymarchEntries hp)).
Proof.
  simpl. repeat (constructor; [simpl; intros H;
    repeat (destruct H as [H | H]; [discriminate H|]); exact H|]). constructor.
Qed.

(** X24. The per-frame copy of the parameters: when the render material
    has a uniform for every scattering and clouds-raymarch parameter and the
    shadow material one for every shadow-raymarch parameter, the callback
    returns; afterwards each of these uniforms holds the value of its
    parameter (so [maxIterations], [minStepSize] and [maxStepSize] hold the
    clouds values on the render material and the shadow values on the shadow
    material), every other uniform is as before, and nothing else of the
    pass changes. *)
Theorem frame_callback_copies_parameters
    (sp : ScatteringParams) (cp : CloudsRaymarchParams) (hp : ShadowRaymarchParams)
    (p : Pass) :
  (forall k, In k (keysOf (scatteringEntries sp ++ cloudsRaymarchEntries cp)) ->
             is_Some (renderUniforms p !! k)) ->
  (forall k, In k (keysOf (shadowRaymarchEntries hp)) ->
             is_Some (shadowUniforms p !! k)) ->
  exists p', frameCallback sp cp hp (Some p) = Returned (Some p') /\
    (forall k v, In (k, v) (scatteringEntries sp ++ cloudsRaymarchEntries cp) ->
                 renderUniforms p' !! k = Some v) /\
    (forall k v, In (k, v) (shadowRaymarchEntries hp) ->
                 shadowUniforms p' !! k = Some v) /\
    (forall key, ~ In key (keysOf (scatteringEntries sp ++ cloudsRaymarchEntries cp)) ->
                 renderUniforms p' !! key = renderUniforms p !! key) /\
    (forall key, ~ In key (keysOf (shadowRaymarchEntries hp)) ->
                 shadowUniforms p' !! key = shadowUniforms p !! key) /\
    renderPass p' = renderPass p /\ renderShapeDetail p' = renderShapeDetail p /\
    shadowCascadeCount p' = shadowCascadeCount p /\
    shadowTemporalPass p' = shadowTemporalPass p /\
    shadowTemporalJitter p' = shadowTemporalJitter p.
Proof.
  intros Hr Hs.
  destruct (assign_returns _ _ Hr) as (mr & Er & _ & Hro & Hrr).
  destruct (assign_returns _ _ Hs) as (ms & Es & _ & Hso & Hsr).
  rewrite assign_app in Er.
  destruct (assignUniforms (scatteringEntries sp) (renderUniforms p)) as [m1|m1] eqn:E1;
    [|discriminate Er].
  exists (withShadowUniforms (withRenderUniforms p mr) ms).
  split.
  - unfold frameCallback. rewrite E1, Er. cbn [shadowUniforms withRenderUniforms].
    rewrite Es. reflexivity.
  - cbn [withShadowUniforms withRenderUniforms renderUniforms shadowUniforms renderPass
         renderShapeDetail shadowCascadeCount shadowTemporalPass shadowTemporalJitter].
    split; [apply Hrr, render_keys_distinct|].
    split; [apply Hsr, shadow_keys_distinct|].
    split; [exact Hro|]. split; [exact Hso|]. repeat split.
Qed.

Lemma uniformsFor_has (entries : list (string * Q)) (k : string) :
  In k (keysOf entries) -> is_Some (uniformsFor entries !! k).
Proof.
  induction entries as [|[k' v] entries IH]; intros Hin; [destruct Hin|].
  simpl. rewrite lookup_insert. destruct (decide (k' = k)); [eauto|].
  apply IH. destruct Hin as [E | Hin]; [simpl in E; congruence | exact Hin].
Qed.

Lemma frame_callback_copies_parameters_witness :
  exists p', frameCallback someScattering someCloudsRaymarch someShadowRaymarch
                           (Some readyPass) = Returned (Some p') /\
    renderUniforms p' !! "maxIterations" = Some 500 /\
    shadowUniforms p' !! "maxIterations" = Some 50.
Proof.
  destruct (frame_callback_copies_parameters someScattering someCloudsRaymarch
              someShadowRaymarch readyPass) as (p' & E & Hr & Hs & _).
  - intros k Hk. now apply uniformsFor_has.
  - intros k Hk. now apply uniformsFor_has.
  - exists p'. split; [exact E|]. split.
    + apply Hr. simpl. tauto.
    + apply Hs. simpl. tauto.
Defined.

(** X25. A missing uniform: when the render material lacks a uniform for
    one of the scattering or clouds-raymarch parameters, the callback ends
    in a TypeError, and the shadow material, whose loop comes last, keeps
    its uniforms. *)
Theorem frame_callback_missing_uniform
    (sp : ScatteringParams) (cp : CloudsRaymarchParams) (hp : ShadowRaymarchParams)
    (p : Pass) :
  (exists k, In k (keysOf (scatteringEntries sp ++ cloudsRaymarchEntries cp)) /\
             renderUniforms p !! k = None) ->
  exists p', frameCallback sp cp hp (Some p) = Threw (Some p') /\
             shadowUniforms p' = shadowUniforms p.
Proof.
  intros Hmiss. destruct (assign_throws _ _ Hmiss) as [m' E].
  rewrite assign_app in E. unfold frameCallback.
  destruct (assignUniforms (scatteringEntries sp) (renderUniforms p)) as [m1|m1].
  - rewrite E. eexists. split; reflexivity.
  - eexists. split; reflexivity.
Qed.

Lemma frame_callback_missing_uniform_witness :
  exists p', frameCallback someScattering someCloudsRaymarch someShadowRaymarch
                           (Some lackingPass) = Threw (Some p') /\
             shadowUniforms p' = shadowUniforms lackingPass.
Proof.
  apply (frame_callback_missing_uniform someScattering someCloudsRaymarch
           someShadowRaymarch lackingPass).
  exists "powderExponent". split; [simpl; tauto | reflexivity].
Defined.

End HookMore.

(** ** Of the stories *)

Module StoriesMore.
Import Stories HookCases.

(** X26. The effect chain of the photorealistic-tiles story: for every
    choice of the three checkboxes the effects come in the order aerial
    perspective, lens flare, depth, normal, tone mapping, SMAA, each at most
    once; lens flare is always there and SMAA is always last; aerial
    perspective and tone mapping are there together, exactly when no depth
    or normal view is. *)
Theorem tiles_effect_chain (normal depth depthNormal : bool) :
  let effects := tilesEffects normal depth depthNormal in
  ascending (map rank effects) = true /\
  In LensFlare effects /\ last effects LensFlare = SMAA /\
  existsb isAerialPerspective effects = existsb isToneMapping effects /\
  existsb isToneMapping effects = negb (existsb isDebugView effects) /\
  existsb isDebugView effects = normal || depth || depthNormal.
Proof.
  destruct normal, depth, depthNormal; vm_compute; repeat split; tauto.
Qed.

(** X27. The effect chain of the other story: for every choice of its
    checkboxes, rendering mode and colour table the effects come in the
    order aerial perspective, lens flare, depth, normal, tone mapping,
    colour table, SMAA, dithering, each at most once; tone mapping, SMAA and
    dithering are there exactly when no depth or normal view is, and aerial
    perspective only when they are and it is enabled. *)
Theorem scene_effect_chain (c : SceneControls) (forward : bool) (lut : option nat) :
  let effects := sceneEffects c forward lut in
  ascending (map rank effects) = true /\
  existsb isToneMapping effects = negb (existsb isDebugView effects) /\
  (In SMAA effects <-> existsb isToneMapping effects = true) /\
  (In Dithering effects <-> existsb isToneMapping effects = true) /\
  existsb isDebugView effects = normal c || depth c /\
  existsb isAerialPerspective effects
  = enabled c && existsb isToneMapping effects.
Proof.
  destruct c as [lf dp nm cg en sn sk tr ins].
  destruct lf, dp, nm, en, lut; vm_compute; repeat split; intros; try tauto;
    try discriminate;
    repeat (match goal with H : _ \/ _ |- _ => destruct H as [H | H] end);
    try discriminate; try contradiction.
Qed.

(** X28. Sun and sky light are applied once: the story never has both the
    forward [SunLight] and an aerial perspective with [sunIrradiance] on,
    and when the sun is switched on and the aerial perspective is shown,
    exactly one of the two is there; the same holds for the sky. *)
Theorem scene_lights_once (c : SceneControls) (forward : bool) (lut : option nat) :
  let effects := sceneEffects c forward lut in
  let postSun := existsb appliesSunIrradiance effects in
  let postSky := existsb appliesSkyIrradiance effects in
  hasSunLight c forward && postSun = false /\
  hasSkyLight c forward && postSky = false /\
  (existsb isAerialPerspective effects = true ->
   xorb (hasSunLight c forward) postSun = sun c /\
   xorb (hasSkyLight c forward) postSky = sky c).
Proof.
  destruct c as [lf dp nm cg en sn sk tr ins].
  destruct lf, dp, nm, en, sn, sk, forward, lut; vm_compute; repeat split;
    intros; try reflexivity; try discriminate.
Qed.

Lemma scene_lights_once_witness :
  let c := mkSceneControls true false false true true true false true true in
  let effects := sceneEffects c false None in
  existsb isAerialPerspective effects = true /\
  xorb (hasSunLight c false) (existsb appliesSunIrradiance effects) = sun c /\
  xorb (hasSkyLight c false) (existsb appliesSkyIrradiance effects) = sky c.
Proof.
  cbv zeta. split; [reflexivity|].
  apply (proj2 (proj2 (scene_lights_once
                         (mkSceneControls true false false true true true false true true)
                         false None))).
  reflexivity.
Defined.

End StoriesMore.
